(** * JohnDCyber_SPF_DKIM_DMARC_SCANNER: the record validators, the per-domain
    evaluator [check_dns_records], its wrapper [worker] and the collecting
    loop of [main], embedded from JohnDCyber_SPF_DKIM_DMARC_SCANNER.py.

    Conventions of the embedding.
    - A Python [str] is a [string]: the sequence of the bytes of its UTF-8
      encoding.  Joining strings is appending them, and for a pattern made of
      ASCII characters [x in s] on the text is byte-wise search on the
      encoding.
    - A Python [bytes] object is a [list byte]; [part.decode()] checks that it
      is well-formed UTF-8 and raises [UnicodeDecodeError] otherwise.
    - A Python [dict] with string keys is a [gmap string string].
    - The DNS is a fixed zone snapshot: [resolver.resolve] is a function of
      the name and the record type asked for, and every call is logged.
      Which texts the resolver takes as a name server is part of the
      snapshot as well; a text it refuses makes the assignment of
      [resolver.nameservers] raise [ValueError].
    - Exceptions are values of [exn]; code that can raise runs in the monad
      [M], whose state holds the [results] dictionary being filled in and the
      log of the queries sent so far. *)

From Stdlib Require Import Ascii String ZArith NArith List Floats Uint63.
From Stdlib.Strings Require Import Byte.
From stdpp Require Import base gmap strings list pretty.

Open Scope string_scope.

(** ** Text *)

Module Text.

Definition is_upper (c : ascii) : bool :=
  (65 <=? nat_of_ascii c)%nat && (nat_of_ascii c <=? 90)%nat.

Definition ascii_lower (c : ascii) : ascii :=
  if is_upper c then ascii_of_nat (nat_of_ascii c + 32) else c.

(** [str.lower()].  The capitals A-Z move to a-z.  Two characters outside
    ASCII have a lower case that holds an ASCII letter: U+212A KELVIN SIGN
    (bytes E2 84 AA) becomes [k], and U+0130 (bytes C4 B0) becomes [i]
    followed by U+0307 (bytes CC 87).  Every other character outside ASCII
    lowers to characters outside ASCII again and is kept as it is here, which
    a search for an ASCII pattern cannot tell apart. *)
Fixpoint lower (s : string) : string :=
  match s with
  | EmptyString => EmptyString
  | String c1 s1 =>
      match s1 with
      | String c2 s2 =>
          if Ascii.eqb c1 "196" && Ascii.eqb c2 "176"
          then String "i" (String "204" (String "135" (lower s2)))
          else
            match s2 with
            | String c3 s3 =>
                if Ascii.eqb c1 "226" && Ascii.eqb c2 "132" && Ascii.eqb c3 "170"
                then String "k" (lower s3)
                else String (ascii_lower c1) (lower s1)
            | EmptyString => String (ascii_lower c1) (lower s1)
            end
      | EmptyString => String (ascii_lower c1) (lower s1)
      end
  end.

(** [s.startswith(prefix)] *)
Fixpoint startswith (prefix s : string) : bool :=
  match prefix, s with
  | EmptyString, _ => true
  | String a p, String b s' => Ascii.eqb a b && startswith p s'
  | String _ _, EmptyString => false
  end.

(** [needle in hay] *)
Fixpoint contains (needle hay : string) : bool :=
  startswith needle hay ||
  match hay with
  | EmptyString => false
  | String _ rest => contains needle rest
  end.

(** [needle] occurs in [hay] as a run of consecutive characters. *)
Definition substring (needle hay : string) : Prop :=
  exists pre post : string, hay = pre ++ needle ++ post.

(** [sep.join(parts)] with the empty separator. *)
Definition join (parts : list string) : string :=
  fold_right String.append "" parts.

End Text.

Import Text.

(** ** Record validators *)

Definition validate_spf (record_content : string) : bool :=
  let record_lower := lower record_content in
  contains "v=spf1" record_lower && contains "all" record_lower.

Definition validate_dmarc (record_content : string) : bool :=
  let lowered := lower record_content in
  contains "v=dmarc1" lowered &&
  existsb (fun pol => contains pol lowered) ["p=none"; "p=quarantine"; "p=reject"].

Definition validate_dkim (record_content : string) : bool :=
  let lowered := lower record_content in
  contains "v=dkim1" lowered && contains "p=" lowered.

(** ** Reading a text without regard to case

    What the validators look for, told without [lower]: a stretch of the
    text that spells the pattern, letter by letter, where a small letter of
    the pattern is also spelt by its capital and [k] also by U+212A KELVIN
    SIGN (the one character outside ASCII whose lower case is an ASCII
    letter alone).  The patterns are words of small letters, digits and
    signs. *)

(** The character [c] of a text spells the character [n] of a pattern: it is
    [n] itself, or it is a capital A-Z and [n] is its small letter, 32 code
    points further. *)
Definition same_letter (c n : ascii) : Prop :=
  c = n \/ ((65 <= nat_of_ascii c <= 90)%nat
            /\ nat_of_ascii n = (nat_of_ascii c + 32)%nat).

(** The bytes E2 84 AA of U+212A KELVIN SIGN. *)
Definition kelvin_sign : string := String "226" (String "132" (String "170" "")).

Inductive spells : string -> string -> Prop :=
  | spells_nil : spells "" ""
  | spells_letter (c n : ascii) (w p : string) :
      same_letter c n -> spells w p -> spells (String c w) (String n p)
  | spells_kelvin (w p : string) :
      spells w p ->
      spells (String "226" (String "132" (String "170" w))) (String "k" p).

Definition occurs_ignoring_case (pattern text : string) : Prop :=
  exists pre w post : string, text = pre ++ w ++ post /\ spells w pattern.

(** The patterns the characterisation is proved for: ASCII characters that
    are no capitals, and no [i] at the end (the lower case of U+0130 is an
    [i] followed by a combining dot, so that only a pattern ending in [i]
    can end inside it). *)
Definition plain_char (n : ascii) : bool :=
  (nat_of_ascii n <? 128)%nat
  && negb ((65 <=? nat_of_ascii n)%nat && (nat_of_ascii n <=? 90)%nat).

Fixpoint plain (p : string) : bool :=
  match p with
  | EmptyString => true
  | String n p' =>
      plain_char n && (negb (Ascii.eqb n "i") || negb (String.eqb p' "")) && plain p'
  end.

(** ** Exceptions and results *)

(** The exceptions that can reach the handlers of the program.  The first
    five stand for instances of [dns.exception.DNSException] ([DNSException]
    itself for any instance that is none of the four named subclasses); the
    others are not DNS exceptions ([OSError] for the errors of the operating
    system at a file, such as [IsADirectoryError] and [PermissionError], and
    [Exception] for any other one). *)
Inductive exn : Set :=
  | NoAnswer
  | NXDOMAIN
  | LifetimeTimeout
  | NoNameservers
  | DNSException
  | UnicodeDecodeError
  | KeyError
  | ValueError
  | OSError
  | Exception.

Definition is_NoAnswer (e : exn) : bool :=
  match e with NoAnswer => true | _ => false end.

Definition is_NXDOMAIN (e : exn) : bool :=
  match e with NXDOMAIN => true | _ => false end.

(** [isinstance(e, dns.exception.DNSException)] *)
Definition is_DNSException (e : exn) : bool :=
  match e with
  | NoAnswer | NXDOMAIN | LifetimeTimeout | NoNameservers | DNSException => true
  | UnicodeDecodeError | KeyError | ValueError | OSError | Exception => false
  end.

(** The tuple [(dns.resolver.NoAnswer, dns.resolver.NXDOMAIN,
    dns.exception.DNSException)] of the three [except] clauses that pass. *)
Definition lookup_failure (e : exn) : bool :=
  is_NoAnswer e || is_NXDOMAIN e || is_DNSException e.

(** The tuple [(dns.resolver.NoAnswer, dns.exception.DNSException)]. *)
Definition no_answer_or_dns (e : exn) : bool :=
  is_NoAnswer e || is_DNSException e.

(** What running a piece of code gives: a value, or a raised exception. *)
Inductive res (A : Type) : Type :=
  | Ok (a : A)
  | Raise (e : exn).
Arguments Ok {A} a.
Arguments Raise {A} e.

(** ** Bytes *)

Module Bytes.

Definition continuation (b : N) : bool := ((128 <=? b) && (b <=? 191))%N.

Definition between (lo b hi : N) : bool := ((lo <=? b) && (b <=? hi))%N.

(** Well-formed UTF-8, as the strict decoder accepts it: shortest forms
    only, no surrogates, nothing above U+10FFFF. *)
Fixpoint utf8_valid (bs : list N) : bool :=
  match bs with
  | [] => true
  | b1 :: r1 =>
      if (b1 <? 128)%N then utf8_valid r1
      else if between 194 b1 223 then
        match r1 with
        | b2 :: r2 => continuation b2 && utf8_valid r2
        | _ => false
        end
      else if between 224 b1 239 then
        match r1 with
        | b2 :: b3 :: r3 =>
            (if (b1 =? 224)%N then between 160 b2 191
             else if (b1 =? 237)%N then between 128 b2 159
             else continuation b2)
            && continuation b3 && utf8_valid r3
        | _ => false
        end
      else if between 240 b1 244 then
        match r1 with
        | b2 :: b3 :: b4 :: r4 =>
            (if (b1 =? 240)%N then between 144 b2 191
             else if (b1 =? 244)%N then between 128 b2 143
             else continuation b2)
            && continuation b3 && continuation b4 && utf8_valid r4
        | _ => false
        end
      else false
  end.

(** [part.decode()] *)
Definition decode (part : list byte) : res string :=
  if utf8_valid (map Byte.to_N part)
  then Ok (string_of_list_byte part)
  else Raise UnicodeDecodeError.

(** [s.encode()] of a literal *)
Definition b (s : string) : list byte := list_byte_of_string s.

End Bytes.

Import Bytes.

(** ** The resolver *)

Inductive rdtype : Set := TXT | A.

(** One resolver call: the name asked for and the record type. *)
Definition query : Type := string * rdtype.

(** A TXT record as the resolver hands it over: [strings], its segments. *)
Record rdata : Type := Rdata { strings : list (list byte) }.

(** The object built by [dns.resolver.Resolver()] and then configured:
    [nameservers] is [None] while the system's own servers are in use. *)
Record Resolver : Type := {
  nameservers : option (list string);
  lifetime : float
}.

(** The world outside the program.  [resolver_configuration] is what
    [dns.resolver.Resolver()] finds when it reads the system configuration
    (it raises when there is none); [accepts_nameserver] tells the texts
    that the setter of [resolver.nameservers] takes as a name server (an IP
    address or an https URL) from those it refuses with [ValueError];
    [lookup_TXT] and [lookup_A] are what [resolver.resolve(name, rdtype)]
    gives for a resolver that was set up: the records, or the exception
    raised. *)
Record network : Type := {
  resolver_configuration : res unit;
  accepts_nameserver : string -> bool;
  lookup_TXT : Resolver -> string -> res (list rdata);
  lookup_A : Resolver -> string -> res (list string)
}.

(** A resolver with a name server that the setter refuses is never set up. *)
Definition refused (net : network) (resolver : Resolver) : bool :=
  match nameservers resolver with
  | None => false
  | Some servers => negb (forallb (accepts_nameserver net) servers)
  end.

(** The answers of a resolver.  The program asks a resolver only after it
    has set it up, so the answers of a refused one are never looked at; they
    are fixed to be the refusal itself. *)
Definition answer_TXT (net : network) (resolver : Resolver) (qname : string)
  : res (list rdata) :=
  if refused net resolver then Raise ValueError else lookup_TXT net resolver qname.

Definition answer_A (net : network) (resolver : Resolver) (qname : string)
  : res (list string) :=
  if refused net resolver then Raise ValueError else lookup_A net resolver qname.

(** ** The monad of the evaluator *)

Record state : Type := State {
  results : gmap string string;
  queries : list query
}.

Definition M (T : Type) : Type := state -> res T * state.

Definition ret {T} (a : T) : M T := fun st => (Ok a, st).

Definition bind {T U} (m : M T) (k : T -> M U) : M U :=
  fun st =>
    match m st with
    | (Ok a, st') => k a st'
    | (Raise e, st') => (Raise e, st')
    end.

#[global] Instance M_ret : MRet M := @ret.
#[global] Instance M_bind : MBind M := fun T U k m => bind m k.

(** A computation that touches neither the dictionary nor the network. *)
Definition lift {T} (r : res T) : M T := fun st => (r, st).

(** [try: body] followed by [except] clauses, each a test on the exception
    and a handler; the first clause whose test holds runs, and an exception
    that no clause matches goes on to the caller. *)
Definition try_except {T} (body : M T) (clauses : list ((exn -> bool) * M T)) : M T :=
  fun st =>
    match body st with
    | (Ok a, st') => (Ok a, st')
    | (Raise e, st') =>
        match find (fun clause => fst clause e) clauses with
        | Some clause => snd clause st'
        | None => (Raise e, st')
        end
    end.

(** How the body of a [for] loop ends: it falls through to the next item, or
    it runs [break]. *)
Inductive ctl : Set := Continue | Break.

Fixpoint for_ {T} (items : list T) (body : T -> M ctl) : M unit :=
  match items with
  | [] => ret tt
  | item :: rest =>
      c ← body item;
      match c with
      | Break => ret tt
      | Continue => for_ rest body
      end
  end.

(** [results = {...}] *)
Definition new_results (d : gmap string string) : M unit :=
  fun st => (Ok tt, State d (queries st)).

(** [results[key] = value] *)
Definition setitem (key value : string) : M unit :=
  fun st => (Ok tt, State (<[key := value]> (results st)) (queries st)).

(** [results[key]] *)
Definition getitem (key : string) : M string :=
  fun st =>
    match results st !! key with
    | Some v => (Ok v, st)
    | None => (Raise KeyError, st)
    end.

Definition get_results : M (gmap string string) :=
  fun st => (Ok (results st), st).

(** [resolver.resolve(qname, 'TXT')] *)
Definition resolve_TXT (net : network) (resolver : Resolver) (qname : string)
  : M (list rdata) :=
  fun st =>
    (answer_TXT net resolver qname, State (results st) (queries st ++ [(qname, TXT)])).

(** [resolver.resolve(qname, 'A')] *)
Definition resolve_A (net : network) (resolver : Resolver) (qname : string)
  : M (list string) :=
  fun st =>
    (answer_A net resolver qname, State (results st) (queries st ++ [(qname, A)])).

Definition run {T} (m : M T) : res T * state := m (State ∅ []).

(** ** The per-domain evaluator *)

(** [part.decode() for part in parts], consumed from left to right. *)
Fixpoint decode_all (parts : list (list byte)) : res (list string) :=
  match parts with
  | [] => Ok []
  | part :: rest =>
      match decode part with
      | Ok text =>
          match decode_all rest with
          | Ok texts => Ok (text :: texts)
          | Raise e => Raise e
          end
      | Raise e => Raise e
      end
  end.

(** ["".join(part.decode() for part in rdata.strings)] *)
Definition combined (r : rdata) : res string :=
  match decode_all (strings r) with
  | Ok texts => Ok (join texts)
  | Raise e => Raise e
  end.

(** The loop over the records of one answer, written three times in the
    source with its own validator and its own key:
    [for rdata in answers: combined_text = ...; if validate(combined_text):
    results[key] = 'Pass'; break]. *)
Definition scan (validate : string -> bool) (key : string) (answers : list rdata)
  : M unit :=
  for_ answers (fun r =>
    combined_text ← lift (combined r);
    if validate combined_text
    then setitem key "Pass";; ret Break
    else ret Continue).

(** [not x] for a string that may be [None] *)
Definition falsy_string (x : option string) : bool :=
  match x with
  | None => true
  | Some s => String.eqb s ""
  end.

(** [not x] for a list that may be [None] *)
Definition falsy_list {T} (x : option (list T)) : bool :=
  match x with
  | None | Some [] => true
  | Some (_ :: _) => false
  end.

Definition selectors_of {T} (x : option (list T)) : list T :=
  match x with
  | None => []
  | Some l => l
  end.

(** [dns.resolver.Resolver()] and the two assignments that configure it. *)
Definition configured (nameserver : option string) (timeout : float) : Resolver :=
  {| nameservers := if falsy_string nameserver then None
                    else Some [default "" nameserver];
     lifetime := timeout |}.

(** [resolver.nameservers = servers] (line 69): the setter checks every
    text of the list and raises [ValueError] at one it does not accept. *)
Definition set_nameservers (net : network) (servers : list string) : M unit :=
  if forallb (accepts_nameserver net) servers then ret tt
  else lift (Raise ValueError).

Definition make_resolver (net : network) (nameserver : option string) (timeout : float)
  : M Resolver :=
  lift (resolver_configuration net);;
  (if falsy_string nameserver then ret tt
   else set_nameservers net [default "" nameserver]);;
  ret (configured nameserver timeout).

Definition initial_results (domain : string) : gmap string string :=
  <["domain" := domain]> (
  <["SPF" := "Fail"]> (
  <["DKIM" := "Fail"]> (
  <["DMARC" := "Fail"]> (
  <["Vulnerable to Spoofing" := "Yes"]> (
  <["Potential Subdomain Takeover" := "Unknown"]> ∅))))).

(** [f"_dmarc.{domain}"] *)
Definition dmarc_domain (domain : string) : string := "_dmarc." ++ domain.

(** [f"{selector}._domainkey.{domain}"] *)
Definition dkim_domain (selector domain : string) : string :=
  selector ++ "._domainkey." ++ domain.

Definition check_dns_records (net : network) (domain : string)
    (known_dkim_selectors : option (list string))
    (nameserver : option string) (timeout : float) : M (gmap string string) :=
  new_results (initial_results domain);;
  resolver ← make_resolver net nameserver timeout;
  (* 1. Check SPF *)
  try_except
    (spf_answers ← resolve_TXT net resolver domain;
     scan validate_spf "SPF" spf_answers)
    [(lookup_failure, ret tt)];;
  (* 2. Check DMARC *)
  try_except
    (dmarc_answers ← resolve_TXT net resolver (dmarc_domain domain);
     scan validate_dmarc "DMARC" dmarc_answers)
    [(lookup_failure, ret tt)];;
  (* 3. Check DKIM *)
  (if falsy_list known_dkim_selectors
   then setitem "DKIM" "Unknown"
   else
     for_ (selectors_of known_dkim_selectors) (fun selector =>
       try_except
         (dkim_answers ← resolve_TXT net resolver (dkim_domain selector domain);
          scan validate_dkim "DKIM" dkim_answers;;
          dkim ← getitem "DKIM";
          if String.eqb dkim "Pass" then ret Break else ret Continue)
         [(lookup_failure, ret Continue)]));;
  (* 4. Determine vulnerability to spoofing *)
  spf ← getitem "SPF";
  dmarc ← getitem "DMARC";
  (if String.eqb spf "Pass" && String.eqb dmarc "Pass"
   then setitem "Vulnerable to Spoofing" "No"
   else ret tt);;
  (* 5. Subdomain takeover heuristic (NXDOMAIN check) *)
  try_except
    (resolve_A net resolver domain;;
     setitem "Potential Subdomain Takeover" "No")
    [(is_NXDOMAIN, setitem "Potential Subdomain Takeover" "Yes");
     (no_answer_or_dns, ret tt)];;
  get_results.

(** ** The worker *)

(** A line written to the console, by its fields:
    [f"[ERROR] {domain}: {e}"] and
    [f"[INFO] Checked {domain} - {completed_count}/{total_count} ({percent}%)"],
    [percent] being the text the format [.2f] gives. *)
Inductive line : Type :=
  | ERROR (domain : string) (e : exn)
  | INFO (domain : string) (completed_count total_count : nat) (percent : string).

Definition error_results (domain : string) : gmap string string :=
  <["domain" := domain]> (
  <["SPF" := "Error"]> (
  <["DKIM" := "Error"]> (
  <["DMARC" := "Error"]> (
  <["Vulnerable to Spoofing" := "Error"]> (
  <["Potential Subdomain Takeover" := "Error"]> ∅))))).

(** What [worker] returns, with the lines it printed.  Its [except Exception]
    clause takes every exception of [exn]. *)
Definition worker (net : network) (domain : string)
    (known_dkim_selectors : option (list string))
    (nameserver : option string) (timeout : float)
  : res (gmap string string) * list line :=
  match run (check_dns_records net domain known_dkim_selectors nameserver timeout) with
  | (Ok r, _) => (Ok r, [])
  | (Raise e, _) => (Ok (error_results domain), [ERROR domain e])
  end.

(** ** The collecting loop of [main] *)

(** A task handed to the pool: [fut_id] tells the futures of one scan apart
    (a domain listed twice has two futures), [fut_result] is what
    [future.result()] gives once the task is done, [fut_printed] what the task
    wrote to the console. *)
Record future : Type := Future {
  fut_id : nat;
  fut_result : res (gmap string string);
  fut_printed : list line
}.

(** [executor.submit(worker, domain, args.dkim_selectors, args.nameserver,
    args.timeout)] for the domain at position [i] of the list. *)
Definition submit (net : network) (known_dkim_selectors : option (list string))
    (nameserver : option string) (timeout : float) (i : nat) (domain : string)
  : future :=
  let w := worker net domain known_dkim_selectors nameserver timeout in
  Future i (fst w) (snd w).

(** [future_to_domain]: every future with the domain it was submitted for,
    in the order of the domain list. *)
Definition future_to_domain (net : network) (known_dkim_selectors : option (list string))
    (nameserver : option string) (timeout : float) (domains : list string)
  : list (future * string) :=
  imap (fun i domain => (submit net known_dkim_selectors nameserver timeout i domain, domain))
       domains.

(** [(completed_count / total_count) * 100], in binary64 as Python computes
    it (the counts are far below 2^53, so turning them into floats is exact). *)
Definition percentage (completed_count total_count : nat) : float :=
  (PrimFloat.of_uint63 (Uint63.of_Z (Z.of_nat completed_count))
   / PrimFloat.of_uint63 (Uint63.of_Z (Z.of_nat total_count)) * 100)%float.

(** [n * 2^e] rounded to the nearest integer, a tie going to the even one. *)
Definition round_half_even (n e : Z) : Z :=
  if (0 <=? e)%Z then (n * 2 ^ e)%Z
  else
    let d := (2 ^ (- e))%Z in
    let q := (n / d)%Z in
    let r := (n mod d)%Z in
    if (2 * r <? d)%Z then q
    else if (d <? 2 * r)%Z then (q + 1)%Z
    else if Z.even q then q else (q + 1)%Z.

Definition two_digits (k : Z) : string :=
  if (k <? 10)%Z then "0" ++ pretty k else pretty k.

(** [f"{x:.2f}"]: the decimal with two digits after the point that is
    nearest to the exact value of the float. *)
Definition format_2f (x : float) : string :=
  match Prim2SF x with
  | S754_zero s => if s then "-0.00" else "0.00"
  | S754_infinity s => if s then "-inf" else "inf"
  | S754_nan => "nan"
  | S754_finite s m e =>
      let h := round_half_even (Z.pos m * 100) e in
      (if s then "-" else "") ++ pretty (h / 100)%Z ++ "." ++ two_digits (h mod 100)%Z
  end.

(** The decimal text of [h] hundredths, for [0 <= h]: the whole part, the
    point, and the two digits of the rest. *)
Definition hundredths (h : Z) : string :=
  let rest := (h mod 100)%Z in
  pretty (h / 100)%Z ++ "." ++ pretty (rest / 10)%Z ++ pretty (rest mod 10)%Z.

(** The hundredths that [format_2f] writes for the percentage are within
    half a hundredth of [100 * k / N]. *)
Definition percent_ok (k N : nat) : bool :=
  match Prim2SF (percentage k N) with
  | S754_finite false m e =>
      let h := round_half_even (Z.pos m * 100) e in
      (Z.abs (2 * h * Z.of_nat N - 20000 * Z.of_nat k) <=? Z.of_nat N)%Z
  | _ => false
  end.

Definition percent_checked (bound : nat) : bool :=
  forallb (fun N => forallb (fun k => percent_ok k N) (seq 1 N)) (seq 1 bound).

(** The variables of the loop and the lines [main] has printed. *)
Record collector : Type := Collector {
  results_list : list (gmap string string);
  completed_count : nat;
  console : list line
}.

(** The body of [for future in as_completed(future_to_domain)]. *)
Definition collect_one (total_count : nat) (c : collector) (entry : future * string)
  : collector :=
  let completed := completed_count c + 1 in
  let domain := snd entry in
  match fut_result (fst entry) with
  | Ok result =>
      Collector (results_list c ++ [result]) completed
                (console c ++ [INFO domain completed total_count
                                    (format_2f (percentage completed total_count))])
  | Raise e =>
      Collector (results_list c) completed (console c ++ [ERROR domain e])
  end.

(** The loop, over the futures in the order in which they complete. *)
Definition collect (total_count : nat) (completion_order : list (future * string))
  : collector :=
  fold_left (collect_one total_count) completion_order (Collector [] 0 []).

(** ** Notions the properties are stated with *)

(** The progress notifications among the lines of a console, as
    (completed, total, percentage). *)
Definition progress (lines : list line) : list (nat * nat * string) :=
  omap (fun l =>
          match l with
          | INFO _ completed total percent => Some (completed, total, percent)
          | ERROR _ _ => None
          end) lines.

(** The six fields of a result and the values each may hold. *)
Definition field_in (r : gmap string string) (key : string) (allowed : list string) : bool :=
  match r !! key with
  | Some v => bool_decide (v ∈ allowed)
  | None => false
  end.

Definition populated (r : gmap string string) : bool :=
  bool_decide (is_Some (r !! "domain"))
  && field_in r "SPF" ["Pass"; "Fail"; "Error"]
  && field_in r "DKIM" ["Pass"; "Fail"; "Unknown"; "Error"]
  && field_in r "DMARC" ["Pass"; "Fail"; "Error"]
  && field_in r "Vulnerable to Spoofing" ["Yes"; "No"; "Error"]
  && field_in r "Potential Subdomain Takeover" ["Yes"; "No"; "Unknown"; "Error"]
  && bool_decide (size r = 6).

(** Whether an answer holds a record that validates: the records before the
    first valid one are decoded and tested in order, the ones after it are
    not looked at. *)
Fixpoint first_valid (validate : string -> bool) (answers : list rdata) : res bool :=
  match answers with
  | [] => Ok false
  | r :: rest =>
      match combined r with
      | Ok text => if validate text then Ok true else first_valid validate rest
      | Raise e => Raise e
      end
  end.

(** What one TXT lookup finds: a valid record or none, a lookup failure
    counting as none; any other exception goes through. *)
Definition lookup_verdict (validate : string -> bool) (answer : res (list rdata)) : res bool :=
  match answer with
  | Ok answers => first_valid validate answers
  | Raise e => if lookup_failure e then Ok false else Raise e
  end.

Definition mark (key : string) (found : bool) (d : gmap string string)
  : gmap string string :=
  if found then <[key := "Pass"]> d else d.

(** The selectors a sweep tries, in order, and how it ends. *)
Fixpoint sweep (probe : string -> res bool) (selectors : list string)
  : res bool * list string :=
  match selectors with
  | [] => (Ok false, [])
  | s :: rest =>
      match probe s with
      | Ok true => (Ok true, [s])
      | Ok false => let '(r, tried) := sweep probe rest in (r, s :: tried)
      | Raise e => (Raise e, [s])
      end
  end.

(** What the sweep finds at one selector. *)
Definition dkim_probe (net : network) (resolver : Resolver) (domain selector : string)
  : res bool :=
  lookup_verdict validate_dkim (answer_TXT net resolver (dkim_domain selector domain)).

Definition dkim_query (domain selector : string) : query :=
  (dkim_domain selector domain, TXT).

(** ** The evaluator in closed form

    What [check_dns_records] returns and which queries it sends, written
    without the monad; [check_dns_records_run] below proves that the code
    computes exactly this. *)

Definition verdict (found : bool) : string := if found then "Pass" else "Fail".

Definition domain_result (domain spf dkim dmarc vulnerable takeover : string)
  : gmap string string :=
  <["domain" := domain]> (
  <["SPF" := spf]> (
  <["DKIM" := dkim]> (
  <["DMARC" := dmarc]> (
  <["Vulnerable to Spoofing" := vulnerable]> (
  <["Potential Subdomain Takeover" := takeover]> ∅))))).

Definition dkim_outcome (net : network) (resolver : Resolver) (domain : string)
    (known_dkim_selectors : option (list string)) : res string * list string :=
  if falsy_list known_dkim_selectors then (Ok "Unknown", [])
  else
    let '(r, tried) :=
      sweep (dkim_probe net resolver domain) (selectors_of known_dkim_selectors) in
    (match r with
     | Ok found => Ok (verdict found)
     | Raise e => Raise e
     end, tried).

Definition takeover_verdict (answer : res (list string)) : res string :=
  match answer with
  | Ok _ => Ok "No"
  | Raise e =>
      if is_NXDOMAIN e then Ok "Yes"
      else if no_answer_or_dns e then Ok "Unknown"
      else Raise e
  end.

(** What is observed of a run: its outcome and the queries it sent. *)
Definition observe {T} (out : res T * state) : res T * list query :=
  (fst out, queries (snd out)).

Definition evaluation (net : network) (domain : string)
    (known_dkim_selectors : option (list string))
    (nameserver : option string) (timeout : float)
  : res (gmap string string) * list query :=
  let resolver := configured nameserver timeout in
  let q_spf := (domain, TXT) in
  let q_dmarc := (dmarc_domain domain, TXT) in
  match resolver_configuration net with
  | Raise e => (Raise e, [])
  | Ok _ =>
      if refused net resolver then (Raise ValueError, []) else
      match lookup_verdict validate_spf (answer_TXT net resolver domain) with
      | Raise e => (Raise e, [q_spf])
      | Ok spf =>
          match lookup_verdict validate_dmarc
                  (answer_TXT net resolver (dmarc_domain domain)) with
          | Raise e => (Raise e, [q_spf; q_dmarc])
          | Ok dmarc =>
              let '(dkim, tried) :=
                dkim_outcome net resolver domain known_dkim_selectors in
              let log := ([q_spf; q_dmarc] ++ map (dkim_query domain) tried)%list in
              match dkim with
              | Raise e => (Raise e, log)
              | Ok dkim =>
                  match takeover_verdict (answer_A net resolver domain) with
                  | Raise e => (Raise e, (log ++ [(domain, A)])%list)
                  | Ok takeover =>
                      (Ok (domain_result domain (verdict spf) dkim (verdict dmarc)
                             (if spf && dmarc then "No" else "Yes") takeover),
                       (log ++ [(domain, A)])%list)
                  end
              end
          end
      end
  end.

(** The queries for address records in a log. *)
Definition is_A_query (q : query) : bool :=
  match snd q with
  | A => true
  | TXT => false
  end.

Definition A_queries (log : list query) : list query := List.filter is_A_query log.

(** A record whose segments decode and whose joined text validates, or does
    not validate. *)
Definition valid_record (validate : string -> bool) (r : rdata) : Prop :=
  exists text, combined r = Ok text /\ validate text = true.

Definition invalid_record (validate : string -> bool) (r : rdata) : Prop :=
  exists text, combined r = Ok text /\ validate text = false.

(** The lookup is answered, and the first record that is not invalid is a
    valid one. *)
Definition yields_valid (validate : string -> bool) (answer : res (list rdata)) : Prop :=
  exists before r after,
    answer = Ok (before ++ r :: after)%list
    /\ Forall (invalid_record validate) before
    /\ valid_record validate r.

(** The lookup fails with one of the exceptions the code passes over, or it
    is answered with records none of which validates. *)
Definition yields_none (validate : string -> bool) (answer : res (list rdata)) : Prop :=
  (exists e, answer = Raise e /\ lookup_failure e = true)
  \/ (exists answers, answer = Ok answers /\ Forall (invalid_record validate) answers).

(** What the scan reports for a domain: the dictionary the evaluator
    returned, or the all-Error one when the evaluator raised. *)
Definition reported (net : network) (known_dkim_selectors : option (list string))
    (nameserver : option string) (timeout : float) (domain : string)
  : gmap string string :=
  match fst (run (check_dns_records net domain known_dkim_selectors nameserver timeout)) with
  | Ok r => r
  | Raise _ => error_results domain
  end.

(** The tags of a DMARC record read as a list of [tag=value] pairs separated
    by semicolons: the name of each pair, in lower case, without the blanks
    around it. *)
Fixpoint split_on (sep : ascii) (s : string) : list string :=
  match s with
  | EmptyString => [""]
  | String c rest =>
      if Ascii.eqb c sep then "" :: split_on sep rest
      else
        match split_on sep rest with
        | [] => [String c ""]
        | piece :: pieces => String c piece :: pieces
        end
  end.

Fixpoint lstrip (s : string) : string :=
  match s with
  | String c rest => if Ascii.eqb c " " then lstrip rest else s
  | EmptyString => EmptyString
  end.

Fixpoint tag_name (pair : string) : string :=
  match pair with
  | EmptyString => EmptyString
  | String c rest =>
      if Ascii.eqb c "=" || Ascii.eqb c " " then EmptyString
      else String c (tag_name rest)
  end.

Definition tags (record_content : string) : list string :=
  map (fun pair => tag_name (lstrip pair)) (split_on ";" (lower record_content)).

(** ** A zone to run the program on *)

Definition example_TXT (qname : string) : res (list rdata) :=
  if String.eqb qname "good.com" then
    Ok [Rdata [b "v=spf1 "; b "include:example.com "; b "-all"]]
  else if String.eqb qname "_dmarc.good.com" then
    Ok [Rdata [b "v=DMARC1; p=reject"]]
  else if String.eqb qname "selector1._domainkey.good.com" then
    Raise LifetimeTimeout
  else if String.eqb qname "selector2._domainkey.good.com" then
    Ok [Rdata [b "k=rsa"]; Rdata [b "v=DKIM1; "; b "p=MIGf"]; Rdata [[xff]]]
  else if String.eqb qname "garbled.example" then
    Ok [Rdata [[xff]]]
  else if String.eqb qname "quiet.example" then
    Raise NoAnswer
  else Raise NXDOMAIN.

Definition example_A (qname : string) : res (list string) :=
  if String.eqb qname "good.com" then Ok ["192.0.2.1"]
  else if String.eqb qname "garbled.example" then Ok ["192.0.2.2"]
  else if String.eqb qname "quiet.example" then Raise NoAnswer
  else if String.eqb qname "slow.example" then Raise LifetimeTimeout
  else Raise NXDOMAIN.

(** The one name server of the examples; any other text is refused. *)
Definition example_accepts (nameserver : string) : bool :=
  String.eqb nameserver "192.0.2.53".

Definition example_net : network :=
  {| resolver_configuration := Ok tt;
     accepts_nameserver := example_accepts;
     lookup_TXT := fun _ => example_TXT;
     lookup_A := fun _ => example_A |}.

Definition default_selectors : list string :=
  ["default"; "selector1"; "selector2"; "mail"].

Definition example_domains : list string :=
  ["good.com"; "garbled.example"; "good.com"].

(** The futures of a scan of [example_domains], the last task completing
    first. *)
Definition example_order : list (future * string) :=
  rev (future_to_domain example_net (Some default_selectors) None 3 example_domains).

(** ** Notions for the further properties *)

(** A record all of whose segments are well-formed UTF-8. *)
Definition decodable (rd : rdata) : Prop :=
  Forall (fun part => utf8_valid (map Byte.to_N part) = true) (strings rd).

(** The name server given on the command line is one the resolver takes:
    none is given, or the setter accepts the text. *)
Definition nameserver_ok (net : network) (nameserver : option string) : bool :=
  falsy_string nameserver || accepts_nameserver net (default "" nameserver).

(** A run in which nothing unexpected happens: the system has a resolver
    configuration, the name server is one the resolver takes, a lookup that
    fails fails with a DNS exception, and the TXT records handed over are
    well-formed UTF-8. *)
Definition benign (net : network) (nameserver : option string) (timeout : float)
  : Prop :=
  let resolver := configured nameserver timeout in
  resolver_configuration net = Ok tt
  /\ nameserver_ok net nameserver = true
  /\ (forall qname,
        match lookup_TXT net resolver qname with
        | Ok answers => Forall decodable answers
        | Raise e => is_DNSException e = true
        end)
  /\ (forall qname,
        match lookup_A net resolver qname with
        | Ok _ => True
        | Raise e => is_DNSException e = true
        end).


(** A zone with a valid SPF and a valid DMARC record for [good.com] and
    nothing else. *)
Definition tidy_TXT (qname : string) : res (list rdata) :=
  if String.eqb qname "good.com" then Ok [Rdata [b "v=spf1 -all"]]
  else if String.eqb qname "_dmarc.good.com" then Ok [Rdata [b "v=DMARC1; p=reject"]]
  else Raise NXDOMAIN.

Definition tidy_net : network :=
  {| resolver_configuration := Ok tt;
     accepts_nameserver := example_accepts;
     lookup_TXT := fun _ => tidy_TXT;
     lookup_A := fun _ => example_A |}.


(** ** The summary of the report *)

(** [df[column]] of the frame [pd.DataFrame(results_list)]: its columns are
    the keys of the dictionaries, so a key that no row has raises
    [KeyError].  Then [(df[column] == value).sum()], the number of rows whose
    entry is [value]. *)
Definition count_equal (column value : string) (df : list (gmap string string))
  : res nat :=
  if existsb (fun r : gmap string string => bool_decide (is_Some (r !! column))) df
  then Ok (length (List.filter
                     (fun r : gmap string string =>
                        bool_decide (r !! column = Some value)) df))
  else Raise KeyError.

(** The figures [generate_html] computes for the summary list of the page. *)
Record summary : Type := Summary {
  total_domains : nat;
  vulnerable_count : nat;
  sub_takeover_count : nat;
  scan_duration : float
}.

Definition analytics (df : list (gmap string string)) (start_time end_time : float)
  : res summary :=
  let total := length df in
  match count_equal "Vulnerable to Spoofing" "Yes" df with
  | Raise e => Raise e
  | Ok vulnerable =>
      match count_equal "Potential Subdomain Takeover" "Yes" df with
      | Raise e => Raise e
      | Ok takeover => Ok (Summary total vulnerable takeover (end_time - start_time)%float)
      end
  end.

(** Whether the evaluation of a domain raises. *)
Definition raises (net : network) (known_dkim_selectors : option (list string))
    (nameserver : option string) (timeout : float) (domain : string) : bool :=
  match fst (run (check_dns_records net domain known_dkim_selectors nameserver timeout)) with
  | Ok _ => false
  | Raise _ => true
  end.

(** The number of items of a list that pass a test. *)
Definition count {T} (test : T -> bool) (l : list T) : nat :=
  length (List.filter test l).

(** Futures that did not come from [worker]: the second one raised. *)
Definition mixed_futures : list (future * string) :=
  [(Future 0 (Ok (error_results "a.example")) [], "a.example");
   (Future 1 (Raise Exception) [], "b.example");
   (Future 2 (Ok (error_results "c.example")) [], "c.example")].


(** ** Reading the domain list *)

Module Whitespace.

(** The characters [str.strip()] removes are those [str.isspace()] holds of.
    On the UTF-8 encoding they are the bytes 9-13 and 28-32, the two-byte
    sequences C2 85 and C2 A0, and the three-byte sequences E1 9A 80,
    E2 80 80-8A, E2 80 A8, E2 80 A9, E2 80 AF, E2 81 9F and E3 80 80. *)
Definition space1 (c : ascii) : bool :=
  let n := nat_of_ascii c in
  ((9 <=? n) && (n <=? 13) || (28 <=? n) && (n <=? 32))%nat.

Definition space2 (c1 c2 : ascii) : bool :=
  let n1 := nat_of_ascii c1 in
  let n2 := nat_of_ascii c2 in
  ((n1 =? 194) && ((n2 =? 133) || (n2 =? 160)))%nat.

Definition space3 (c1 c2 c3 : ascii) : bool :=
  let n1 := nat_of_ascii c1 in
  let n2 := nat_of_ascii c2 in
  let n3 := nat_of_ascii c3 in
  ((n1 =? 225) && (n2 =? 154) && (n3 =? 128)
   || (n1 =? 226) && (n2 =? 128)
      && ((128 <=? n3) && (n3 <=? 138) || (n3 =? 168) || (n3 =? 169) || (n3 =? 175))
   || (n1 =? 226) && (n2 =? 129) && (n3 =? 159)
   || (n1 =? 227) && (n2 =? 128) && (n3 =? 128))%nat.

(** Dropping from the front of a text every leading character that one of
    three tests, on one, two and three bytes, holds of. *)
Fixpoint drop_leading (p1 : ascii -> bool) (p2 : ascii -> ascii -> bool)
    (p3 : ascii -> ascii -> ascii -> bool) (l : list ascii) : list ascii :=
  match l with
  | [] => []
  | c1 :: l1 =>
      if p1 c1 then drop_leading p1 p2 p3 l1
      else
        match l1 with
        | [] => l
        | c2 :: l2 =>
            if p2 c1 c2 then drop_leading p1 p2 p3 l2
            else
              match l2 with
              | [] => l
              | c3 :: l3 =>
                  if p3 c1 c2 c3 then drop_leading p1 p2 p3 l3 else l
              end
        end
  end.

Definition lstrip (l : list ascii) : list ascii :=
  drop_leading space1 space2 space3 l.

(** The same from the end: the text is read backwards, and so are the
    sequences. *)
Definition rstrip (l : list ascii) : list ascii :=
  rev (drop_leading space1 (fun c2 c1 => space2 c1 c2)
                    (fun c3 c2 c1 => space3 c1 c2 c3) (rev l)).

(** [s.strip()] *)
Definition strip (s : string) : string :=
  string_of_list_ascii (lstrip (rstrip (list_ascii_of_string s))).

End Whitespace.

(** What [open(args.input_file, 'r')] and the iteration over the file give:
    the lines of the file, each with the newline that ends it, or
    [FileNotFoundError], or any other exception raised on the way
    ([OSError] for a directory or a file that may not be read,
    [UnicodeDecodeError] for bytes that are not text, ...). *)
Inductive opened : Type :=
  | FileLines (lines : list string)
  | FileNotFoundError
  | FileRaised (e : exn).

(** How [main] goes on after reading the file: it prints a message and calls
    [sys.exit(code)], or an exception that no clause catches ends it, or it
    scans the domains. *)
Inductive start : Type :=
  | Exit (code : nat) (message : string)
  | Uncaught (e : exn)
  | Scan (domains : list string).

(** [[line.strip() for line in f if line.strip()]] *)
Fixpoint stripped_lines (lines : list string) : list string :=
  match lines with
  | [] => []
  | line :: rest =>
      if String.eqb (Whitespace.strip line) "" then stripped_lines rest
      else Whitespace.strip line :: stripped_lines rest
  end.

Definition read_domains (file : opened) (input_file : string) : start :=
  match file with
  | FileNotFoundError => Exit 1 ("[ERROR] Input file not found: " ++ input_file)
  | FileRaised e => Uncaught e
  | FileLines lines =>
      match stripped_lines lines with
      | [] => Exit 1 "[ERROR] No domains found in the input file."
      | domain :: domains => Scan (domain :: domains)
      end
  end.

Definition newline : string := String "010" EmptyString.

(** A file of five lines: a domain with blanks around it, an empty line, a
    line of blanks (a tab and a no-break space), a domain, and the first
    domain again without a newline at the end. *)
Definition example_file : opened :=
  FileLines ["  good.com " ++ newline;
             newline;
             String "009" (String "194" (String "160" newline));
             "bad.com" ++ newline;
             "good.com"].


(** ** The names of the report files *)

Fixpoint has_dot (s : string) : bool :=
  match s with
  | EmptyString => false
  | String c rest => Ascii.eqb c "." || has_dot rest
  end.

(** [s.rsplit('.', 1)[0]]: the text before the last dot, or the whole text
    when it has no dot. *)
Fixpoint before_last_dot (s : string) : string :=
  match s with
  | EmptyString => EmptyString
  | String c rest =>
      if has_dot rest then String c (before_last_dot rest)
      else if Ascii.eqb c "." then EmptyString
      else s
  end.

(** What [datetime.datetime.now()] gives, down to the second. *)
Record datetime : Type := Datetime {
  year : nat;
  month : nat;
  day : nat;
  hour : nat;
  minute : nat;
  second : nat
}.

(** The fields of a date and time of day. *)
Definition clock_reading (t : datetime) : Prop :=
  1 <= month t <= 12 /\ 1 <= day t <= 31 /\ hour t < 24 /\ minute t < 60 /\ second t < 60.

(** [t.strftime("%Y%m%d_%H%M%S")]: the year in decimal, then month, day,
    hour, minute and second with two digits each. *)
Definition strftime (t : datetime) : string :=
  pretty (year t)
  ++ two_digits (Z.of_nat (month t)) ++ two_digits (Z.of_nat (day t))
  ++ "_"
  ++ two_digits (Z.of_nat (hour t)) ++ two_digits (Z.of_nat (minute t))
  ++ two_digits (Z.of_nat (second t)).

(** The name [generate_csv] writes to:
    [f"{base_output_csv.rsplit('.', 1)[0]}_{timestamp}.csv"]. *)
Definition output_csv (base_output_csv : string) (now : datetime) : string :=
  before_last_dot base_output_csv ++ "_" ++ strftime now ++ ".csv".

(** The name [generate_html] writes to:
    [f"{base_output_html.rsplit('.', 1)[0]}_{timestamp_str}.html"]. *)
Definition output_html (base_output_html : string) (now : datetime) : string :=
  before_last_dot base_output_html ++ "_" ++ strftime now ++ ".html".

(** Whether [two_digits] gives two characters for every number below 100,
    and different texts for different numbers. *)
Definition two_digits_checked : bool :=
  forallb (fun a =>
             Nat.eqb (String.length (two_digits (Z.of_nat a))) 2
             && forallb (fun b =>
                           implb (String.eqb (two_digits (Z.of_nat a))
                                             (two_digits (Z.of_nat b)))
                                 (Nat.eqb a b))
                        (seq 0 100))
          (seq 0 100).

Definition example_now : datetime := Datetime 2025 3 9 7 5 0.

(** * Properties *)

(** ** Searching a text *)

Lemma startswith_spec (p s : string) :
  startswith p s = true <-> exists post : string, s = p ++ post.
Proof.
  revert s. induction p as [|a p IH]; intros s; simpl.
  - split; [intros _; by exists s | done].
  - destruct s as [|c s]; simpl.
    + split; [done | intros [post H]; discriminate H].
    + rewrite andb_true_iff, IH. split.
      * intros [Hac [post ->]]. apply Ascii.eqb_eq in Hac as ->. by exists post.
      * intros [post H]. injection H as -> ->. split; [apply Ascii.eqb_refl | by exists post].
Qed.

Lemma contains_spec (needle hay : string) :
  contains needle hay = true <-> substring needle hay.
Proof.
  unfold substring. induction hay as [|c hay IH].
  - simpl. rewrite orb_false_r, startswith_spec. split.
    + intros [post H]. by exists "", post.
    + intros [pre [post H]]. destruct pre; simpl in H; [by exists post | discriminate H].
  - cbn [contains]. rewrite orb_true_iff, startswith_spec, IH. split.
    + intros [[post H] | [pre [post H]]].
      * by exists "", post.
      * exists (String c pre), post. simpl. by rewrite H.
    + intros [pre [post H]]. destruct pre as [|c' pre]; simpl in H.
      * left. by exists post.
      * right. injection H as _ H. by exists pre, post.
Qed.

(** ** Lower case and search, without [lower] *)

Lemma lower_eq (c1 : ascii) (s1 : string) :
  lower (String c1 s1) =
  match s1 with
  | String c2 s2 =>
      if Ascii.eqb c1 "196" && Ascii.eqb c2 "176"
      then String "i" (String "204" (String "135" (lower s2)))
      else
        match s2 with
        | String c3 s3 =>
            if Ascii.eqb c1 "226" && Ascii.eqb c2 "132" && Ascii.eqb c3 "170"
            then String "k" (lower s3)
            else String (ascii_lower c1) (lower s1)
        | EmptyString => String (ascii_lower c1) (lower s1)
        end
  | EmptyString => String (ascii_lower c1) (lower s1)
  end.
Proof. reflexivity. Qed.

(** The three ways [lower] reads the head of a text. *)
Lemma lower_cases (c1 : ascii) (s1 : string) :
  (exists s2, c1 = "196"%char /\ s1 = String "176" s2
              /\ lower (String c1 s1) = String "i" (String "204" (String "135" (lower s2))))
  \/ (exists s3, c1 = "226"%char /\ s1 = String "132" (String "170" s3)
                 /\ lower (String c1 s1) = String "k" (lower s3))
  \/ ((forall s3, String c1 s1 <> String "226" (String "132" (String "170" s3)))
      /\ lower (String c1 s1) = String (ascii_lower c1) (lower s1)).
Proof.
  rewrite lower_eq. destruct s1 as [|c2 s2].
  { right; right. split; [intros s3 H; discriminate H | reflexivity]. }
  destruct (Ascii.eqb_spec c1 "196") as [-> | H1].
  - destruct (Ascii.eqb_spec c2 "176") as [-> | H2]; cbn [andb].
    + left. by exists s2.
    + right; right. destruct s2 as [|c3 s3]; (split; [intros s H; discriminate H | reflexivity]).
  - cbn [andb]. destruct s2 as [|c3 s3].
    { right; right. split; [intros s3 H; discriminate H | reflexivity]. }
    destruct (Ascii.eqb_spec c1 "226") as [-> | H3]; cbn [andb].
    2:{ right; right. split; [|reflexivity]. intros s H. injection H as H _. done. }
    destruct (Ascii.eqb_spec c2 "132") as [-> | H4]; cbn [andb].
    2:{ right; right. split; [|reflexivity]. intros s H. injection H as H _. done. }
    destruct (Ascii.eqb_spec c3 "170") as [-> | H5].
    2:{ right; right. split; [|reflexivity]. intros s H. injection H as H _. done. }
    right; left. by exists s3.
Qed.

Lemma plain_char_bounds (n : ascii) :
  plain_char n = true <-> (nat_of_ascii n < 128 /\ ~ (65 <= nat_of_ascii n <= 90))%nat.
Proof.
  unfold plain_char. rewrite andb_true_iff, negb_true_iff, andb_false_iff.
  rewrite Nat.ltb_lt, !Nat.leb_gt. lia.
Qed.

Lemma is_upper_bounds (c : ascii) :
  is_upper c = true <-> (65 <= nat_of_ascii c <= 90)%nat.
Proof.
  unfold is_upper. rewrite andb_true_iff, !Nat.leb_le. lia.
Qed.

(** A character lowers to a plain character exactly when it spells it. *)
Lemma ascii_lower_same_letter (c n : ascii) :
  plain_char n = true -> ascii_lower c = n <-> same_letter c n.
Proof.
  intros Hn%plain_char_bounds. unfold ascii_lower, same_letter.
  destruct (is_upper c) eqn:Hc.
  - apply is_upper_bounds in Hc. split.
    + intros <-. right. split; [exact Hc|].
      rewrite nat_ascii_embedding; lia.
    + intros [-> | [_ H]]; [lia|]. by rewrite <- H, ascii_nat_embedding.
  - assert (Hc' : ~ (65 <= nat_of_ascii c <= 90)%nat).
    { intros H%is_upper_bounds. congruence. }
    split; [by left | intros [-> | [H _]]; [reflexivity | done]].
Qed.

(** A word that spells a pattern starting with a plain character starts with
    an ASCII character or with the Kelvin sign. *)
Lemma spells_head (w p : string) (n : ascii) :
  spells w (String n p) -> plain_char n = true ->
  exists c w', w = String c w' /\ ((nat_of_ascii c < 128)%nat \/ c = "226"%char).
Proof.
  intros H Hn%plain_char_bounds. inversion H as [|c n' w' p' Hc Hw|w' p' Hw]; subst.
  - exists c, w'. split; [reflexivity|]. left. destruct Hc as [-> | [? ?]]; lia.
  - eexists _, _. split; [reflexivity|]. by right.
Qed.

Lemma plain_cons (n : ascii) (p : string) :
  plain (String n p) = true ->
  plain_char n = true /\ (n = "i"%char -> p <> "") /\ plain p = true.
Proof.
  cbn [plain]. rewrite !andb_true_iff, orb_true_iff, !negb_true_iff.
  intros [[Hn Hi] Hp]. split; [exact Hn|]. split; [|exact Hp].
  intros -> ->. destruct Hi as [Hi | Hi]; discriminate Hi.
Qed.

(** No plain pattern starts at a byte outside ASCII. *)
Lemma startswith_high (p : string) (m : ascii) (s : string) :
  plain p = true -> p <> "" -> (128 <= nat_of_ascii m)%nat ->
  startswith p (String m s) = false.
Proof.
  destruct p as [|n p]; [done|]. intros (Hn & _ & _)%plain_cons _ Hm.
  apply plain_char_bounds in Hn as [Hn _]. cbn [startswith].
  destruct (Ascii.eqb_spec n m) as [-> | _]; [lia | reflexivity].
Qed.

(** The lower-case form starts with a plain pattern exactly when the text
    starts with a word that spells it. *)
Lemma startswith_lower (p : string) :
  plain p = true ->
  forall text : string,
    startswith p (lower text) = true
    <-> exists w post : string, text = w ++ post /\ spells w p.
Proof.
  induction p as [|n p IH]; intros Hp text.
  { split; [intros _ | done]. exists "", text. split; [reflexivity | constructor]. }
  apply plain_cons in Hp as (Hn & Hi & Hp). specialize (IH Hp).
  destruct text as [|c1 s1].
  { split; [done|]. intros (w & post & Htext & Hw).
    destruct (spells_head _ _ _ Hw Hn) as (c & w' & -> & _). discriminate Htext. }
  destruct (lower_cases c1 s1) as [(s2 & -> & -> & ->) | [(s3 & -> & -> & ->) | [Hk ->]]].
  - (* U+0130 *)
    split.
    + cbn [startswith]. intros [Hni Hrest]%andb_true_iff.
      apply Ascii.eqb_eq in Hni as ->.
      rewrite startswith_high in Hrest; [done | exact Hp | by apply Hi | cbv; lia].
    + intros (w & post & Htext & Hw).
      destruct (spells_head _ _ _ Hw Hn) as (c & w' & -> & Hc).
      injection Htext as <- _. destruct Hc as [Hc | Hc]; [cbv in Hc; lia | discriminate Hc].
  - (* the Kelvin sign *)
    cbn [startswith]. rewrite andb_true_iff, IH. split.
    + intros [->%Ascii.eqb_eq (w & post & -> & Hw)].
      exists (String "226" (String "132" (String "170" w))), post.
      split; [reflexivity | by constructor].
    + intros (w & post & Htext & Hw).
      inversion Hw as [|c n' w' p' Hc Hw'|w' p' Hw']; subst.
      * injection Htext as <- _. apply plain_char_bounds in Hn.
        destruct Hc as [<- | [Hc _]]; [cbv in Hn; lia | cbv in Hc; lia].
      * injection Htext as ->. split; [reflexivity|]. by exists w', post.
  - (* any other byte *)
    cbn [startswith]. rewrite andb_true_iff, IH. split.
    + intros [Hc%Ascii.eqb_eq (w & post & -> & Hw)].
      exists (String c1 w), post. split; [reflexivity|]. constructor; [|exact Hw].
      by apply ascii_lower_same_letter.
    + intros (w & post & Htext & Hw).
      inversion Hw as [|c n' w' p' Hc Hw'|w' p' Hw']; subst.
      * injection Htext as -> ->. split; [|by exists w', post].
        apply Ascii.eqb_eq. symmetry. by apply ascii_lower_same_letter.
      * exfalso. apply (Hk (w' ++ post)). exact Htext.
Qed.

Lemma occurs_nil (p : string) :
  occurs_ignoring_case p "" <-> exists w post : string, "" = w ++ post /\ spells w p.
Proof.
  split.
  - intros (pre & w & post & H & Hw). destruct pre; [|discriminate H]. by exists w, post.
  - intros (w & post & H & Hw). by exists "", w, post.
Qed.

Lemma occurs_cons (p : string) (c : ascii) (s : string) :
  occurs_ignoring_case p (String c s)
  <-> (exists w post : string, String c s = w ++ post /\ spells w p)
      \/ occurs_ignoring_case p s.
Proof.
  split.
  - intros (pre & w & post & H & Hw). destruct pre as [|c' pre].
    + left. by exists w, post.
    + right. injection H as _ ->. by exists pre, w, post.
  - intros [(w & post & H & Hw) | (pre & w & post & -> & Hw)].
    + by exists "", w, post.
    + by exists (String c pre), w, post.
Qed.

(** A plain pattern is not spelt from a byte outside ASCII other than the
    first of the Kelvin sign. *)
Lemma occurs_skip (p : string) (c : ascii) (s : string) :
  plain p = true -> p <> "" -> (128 <= nat_of_ascii c)%nat -> c <> "226"%char ->
  occurs_ignoring_case p (String c s) <-> occurs_ignoring_case p s.
Proof.
  intros Hp Hne Hc Hk. rewrite occurs_cons. split; [|by right].
  intros [(w & post & H & Hw) | H]; [|exact H]. exfalso.
  destruct p as [|n p]; [done|]. apply plain_cons in Hp as (Hn & _ & _).
  destruct (spells_head _ _ _ Hw Hn) as (c' & w' & -> & Hc').
  injection H as -> _. destruct Hc' as [Hc' | Hc']; [lia | done].
Qed.

Lemma contains_cons (needle : string) (c : ascii) (hay : string) :
  contains needle (String c hay) = startswith needle (String c hay) || contains needle hay.
Proof. reflexivity. Qed.

Lemma contains_lower_bounded (p : string) :
  plain p = true -> p <> "" ->
  forall (n : nat) (text : string),
    (String.length text <= n)%nat ->
    contains p (lower text) = true <-> occurs_ignoring_case p text.
Proof.
  intros Hp Hne n. induction n as [n IH] using lt_wf_ind. intros text Hlen.
  pose proof (startswith_lower p Hp text) as Hstart.
  destruct text as [|c1 s1].
  { cbn [lower contains] in *. by rewrite orb_false_r, Hstart, occurs_nil. }
  destruct (lower_cases c1 s1)
    as [(s2 & -> & -> & Hlow) | [(s3 & -> & -> & Hlow) | [Hk Hlow]]];
    rewrite Hlow in *; clear Hlow.
  - (* U+0130: no plain pattern is found in its lower case *)
    rewrite !contains_cons.
    rewrite (startswith_high p "204") by (done || cbv; lia).
    rewrite (startswith_high p "135") by (done || cbv; lia).
    cbn [orb]. cbn [String.length] in Hlen.
    rewrite !occurs_skip by (done || cbv; lia).
    rewrite <- (IH (String.length s2)) by lia.
    destruct (startswith p _) eqn:Hs; [|reflexivity]. exfalso.
    destruct (proj1 Hstart eq_refl) as (w & post & Htext & Hw).
    destruct p as [|n' p]; [done|]. apply plain_cons in Hp as (Hn & _ & _).
    destruct (spells_head _ _ _ Hw Hn) as (c & w' & -> & Hc).
    injection Htext as <- _. destruct Hc as [Hc | Hc]; [cbv in Hc; lia | discriminate Hc].
  - (* the Kelvin sign *)
    cbn [String.length] in Hlen.
    rewrite contains_cons, orb_true_iff, Hstart, occurs_cons.
    rewrite !occurs_skip by (done || cbv; lia).
    by rewrite <- (IH (String.length s3)) by lia.
  - cbn [String.length] in Hlen.
    rewrite contains_cons, orb_true_iff, Hstart, occurs_cons.
    by rewrite <- (IH (String.length s1)) by lia.
Qed.

(** The search of the validators: a plain pattern is found in the lower-case
    form of a text exactly when a stretch of the text spells it. *)
Lemma contains_lower (p text : string) :
  plain p = true ->
  contains p (lower text) = true <-> occurs_ignoring_case p text.
Proof.
  intros Hp. destruct (String.eqb_spec p "") as [-> | Hne].
  - split; [intros _ | by destruct (lower text)].
    exists "", "", text. split; [reflexivity | constructor].
  - by apply (contains_lower_bounded p Hp Hne (String.length text)).
Qed.

(** ** Running the evaluator *)

Section Run.

Variable net : network.
Variable resolver : Resolver.

Lemma bind_run {T U} (m : M T) (k : T -> M U) (st : state) :
  (m ≫= k) st =
  match m st with
  | (Ok a, st') => k a st'
  | (Raise e, st') => (Raise e, st')
  end.
Proof. reflexivity. Qed.

Lemma scan_run (validate : string -> bool) (key : string) (answers : list rdata) (st : state) :
  scan validate key answers st =
  match first_valid validate answers with
  | Ok found => (Ok tt, State (mark key found (results st)) (queries st))
  | Raise e => (Raise e, st)
  end.
Proof.
  unfold scan. induction answers as [|r rest IH]; cbn [for_ first_valid].
  - by destruct st.
  - rewrite !bind_run. unfold lift. destruct (combined r) as [text|e]; [|reflexivity].
    destruct (validate text); [reflexivity | apply IH].
Qed.

Lemma decode_all_raise (parts : list (list byte)) (e : exn) :
  decode_all parts = Raise e -> e = UnicodeDecodeError.
Proof.
  induction parts as [|part rest IH]; cbn [decode_all]; [done|].
  unfold decode. destruct (utf8_valid _); [|congruence].
  destruct (decode_all rest); [done|]. intros [= <-]. by apply IH.
Qed.

Lemma combined_raise (r : rdata) (e : exn) :
  combined r = Raise e -> e = UnicodeDecodeError.
Proof.
  unfold combined. destruct (decode_all (strings r)) eqn:H; [done|].
  intros [= <-]. by eapply decode_all_raise.
Qed.

Lemma first_valid_raise (validate : string -> bool) (answers : list rdata) (e : exn) :
  first_valid validate answers = Raise e -> e = UnicodeDecodeError.
Proof.
  induction answers as [|r rest IH]; cbn [first_valid]; [done|].
  destruct (combined r) as [text|e'] eqn:H.
  - destruct (validate text); [done | apply IH].
  - intros [= <-]. by eapply combined_raise.
Qed.

Lemma lookup_run (validate : string -> bool) (key qname : string) (st : state) :
  try_except
    (answers ← resolve_TXT net resolver qname; scan validate key answers)
    [(lookup_failure, ret tt)] st =
  match lookup_verdict validate (answer_TXT net resolver qname) with
  | Ok found =>
      (Ok tt, State (mark key found (results st)) (queries st ++ [(qname, TXT)]))
  | Raise e => (Raise e, State (results st) (queries st ++ [(qname, TXT)]))
  end.
Proof.
  unfold try_except, lookup_verdict. rewrite bind_run. unfold resolve_TXT.
  destruct (answer_TXT net resolver qname) as [answers|e].
  - rewrite scan_run. destruct (first_valid validate answers) as [found|e] eqn:H; [reflexivity|].
    apply first_valid_raise in H as ->. reflexivity.
  - cbn [find fst snd]. destruct (lookup_failure e); reflexivity.
Qed.

Lemma getitem_run (key value : string) (st : state) :
  results st !! key = Some value -> getitem key st = (Ok value, st).
Proof. unfold getitem. by intros ->. Qed.

Lemma sweep_run (domain : string) (selectors : list string) (st : state) :
  results st !! "DKIM" = Some "Fail" ->
  for_ selectors (fun selector =>
    try_except
      (dkim_answers ← resolve_TXT net resolver (dkim_domain selector domain);
       scan validate_dkim "DKIM" dkim_answers;;
       dkim ← getitem "DKIM";
       if String.eqb dkim "Pass" then ret Break else ret Continue)
      [(lookup_failure, ret Continue)]) st =
  let '(r, tried) := sweep (dkim_probe net resolver domain) selectors in
  let log := (queries st ++ map (dkim_query domain) tried)%list in
  match r with
  | Ok found => (Ok tt, State (mark "DKIM" found (results st)) log)
  | Raise e => (Raise e, State (results st) log)
  end.
Proof.
  revert st. induction selectors as [|s rest IH]; intros st Hfail; cbn [for_ sweep].
  - cbn. rewrite app_nil_r. by destruct st.
  - rewrite bind_run. unfold try_except at 1. rewrite bind_run.
    unfold resolve_TXT at 1, dkim_probe at 1, lookup_verdict.
    destruct (answer_TXT net resolver (dkim_domain s domain)) as [answers|e].
    + rewrite bind_run, scan_run.
      destruct (first_valid validate_dkim answers) as [[|]|e] eqn:Hfv.
      * rewrite bind_run, (getitem_run "DKIM" "Pass") by apply lookup_insert_eq.
        reflexivity.
      * rewrite bind_run, (getitem_run "DKIM" "Fail") by exact Hfail.
        change (String.eqb "Fail" "Pass") with false. cbv iota. unfold ret at 1.
        rewrite IH by exact Hfail. cbn [results queries].
        destruct (sweep (dkim_probe net resolver domain) rest) as [r tried].
        cbn [map]. rewrite <- app_assoc. reflexivity.
      * apply first_valid_raise in Hfv as ->. reflexivity.
    + cbn [find fst]. destruct (lookup_failure e); [|reflexivity].
      cbn [snd]. unfold ret at 1. rewrite IH by exact Hfail. cbn [results queries].
      destruct (sweep (dkim_probe net resolver domain) rest) as [r tried].
      cbn [map]. rewrite <- app_assoc. reflexivity.
Qed.

End Run.

(** A resolver is refused when a name server is given and is not one the
    setter accepts. *)
Lemma refused_configured (net : network) (nameserver : option string) (timeout : float) :
  refused net (configured nameserver timeout) =
  if falsy_string nameserver then false
  else negb (accepts_nameserver net (default "" nameserver)).
Proof.
  unfold refused, configured. cbn [nameservers].
  destruct (falsy_string nameserver); [reflexivity|].
  cbn [forallb]. rewrite andb_true_r. reflexivity.
Qed.

Lemma refused_nameserver_ok (net : network) (nameserver : option string) (timeout : float) :
  refused net (configured nameserver timeout) = negb (nameserver_ok net nameserver).
Proof.
  rewrite refused_configured. unfold nameserver_ok.
  by destruct (falsy_string nameserver).
Qed.

(** The answers of a resolver that was set up are those of the network. *)
Lemma answer_TXT_set_up (net : network) (resolver : Resolver) (qname : string) :
  refused net resolver = false ->
  answer_TXT net resolver qname = lookup_TXT net resolver qname.
Proof.
  unfold answer_TXT. intros ->. reflexivity.
Qed.

Lemma answer_A_set_up (net : network) (resolver : Resolver) (qname : string) :
  refused net resolver = false ->
  answer_A net resolver qname = lookup_A net resolver qname.
Proof.
  unfold answer_A. intros ->. reflexivity.
Qed.

(** An answer other than the refusal comes from a resolver that was set up. *)
Lemma answer_TXT_refused (net : network) (resolver : Resolver) (qname : string) :
  refused net resolver = true -> answer_TXT net resolver qname = Raise ValueError.
Proof.
  unfold answer_TXT. intros ->. reflexivity.
Qed.

Lemma answer_TXT_Ok (net : network) (resolver : Resolver) (qname : string)
    (answers : list rdata) :
  answer_TXT net resolver qname = Ok answers -> refused net resolver = false.
Proof.
  unfold answer_TXT. by destruct (refused net resolver).
Qed.

Lemma answer_A_refused (net : network) (resolver : Resolver) (qname : string) :
  refused net resolver = true -> answer_A net resolver qname = Raise ValueError.
Proof.
  unfold answer_A. intros ->. reflexivity.
Qed.

Section Evaluation.

Variable net : network.
Variable domain : string.
Variable known_dkim_selectors : option (list string).
Variable nameserver : option string.
Variable timeout : float.

Lemma check_dns_records_run :
  observe (run (check_dns_records net domain known_dkim_selectors nameserver timeout)) =
  evaluation net domain known_dkim_selectors nameserver timeout.
Proof.
  unfold run, check_dns_records, evaluation.
  rewrite bind_run. cbn [new_results queries].
  rewrite bind_run. unfold make_resolver at 1. rewrite bind_run. unfold lift at 1.
  destruct (resolver_configuration net) as [[]|e]; [|reflexivity].
  rewrite bind_run, refused_configured. unfold set_nameservers.
  cbn [forallb]. rewrite andb_true_r.
  destruct (falsy_string nameserver);
    [|destruct (accepts_nameserver net _); [|reflexivity]];
    cbn [negb]; unfold ret at 1 2.
  all: rewrite bind_run, lookup_run; cbn [results queries app].
  all: destruct (lookup_verdict validate_spf _) as [spf|e]; [|reflexivity].
  all: rewrite bind_run, lookup_run; cbn [results queries app].
  all: destruct (lookup_verdict validate_dmarc _) as [dmarc|e]; [|reflexivity].
  all: rewrite bind_run; unfold dkim_outcome, resolve_A.
  all: destruct (falsy_list known_dkim_selectors).
  1, 3: destruct spf, dmarc;
      (destruct (answer_A net _ domain) as [?|[]]; reflexivity).
  all: rewrite sweep_run by (destruct spf, dmarc; reflexivity).
  all: destruct (sweep _ _) as [[[|]|e] tried]; cbn [results queries];
      [| |reflexivity];
      (destruct spf, dmarc;
         (destruct (answer_A net _ domain) as [?|[]]; reflexivity)).
Qed.

(** What an evaluation that returns has gone through. *)
Lemma check_dns_records_ok (r : gmap string string) (st : state) :
  run (check_dns_records net domain known_dkim_selectors nameserver timeout) = (Ok r, st) ->
  let resolver := configured nameserver timeout in
  exists (spf dmarc : bool) (dkim takeover : string) (tried : list string),
    resolver_configuration net = Ok tt
    /\ lookup_verdict validate_spf (answer_TXT net resolver domain) = Ok spf
    /\ lookup_verdict validate_dmarc (answer_TXT net resolver (dmarc_domain domain)) = Ok dmarc
    /\ dkim_outcome net resolver domain known_dkim_selectors = (Ok dkim, tried)
    /\ takeover_verdict (answer_A net resolver domain) = Ok takeover
    /\ r = domain_result domain (verdict spf) dkim (verdict dmarc)
                         (if spf && dmarc then "No" else "Yes") takeover
    /\ queries st =
         ([(domain, TXT); (dmarc_domain domain, TXT)]
          ++ map (dkim_query domain) tried ++ [(domain, A)])%list.
Proof.
  intros Hrun resolver. pose proof check_dns_records_run as H.
  rewrite Hrun in H. unfold observe, evaluation in H. cbn [fst snd] in H.
  fold resolver in H.
  destruct (resolver_configuration net) as [[]|e]; [|discriminate H].
  destruct (refused net resolver); [discriminate H|].
  destruct (lookup_verdict validate_spf _) as [spf|e]; [|discriminate H].
  destruct (lookup_verdict validate_dmarc _) as [dmarc|e]; [|discriminate H].
  destruct (dkim_outcome net resolver domain known_dkim_selectors) as [[dkim|e] tried];
    [|discriminate H].
  destruct (takeover_verdict _) as [takeover|e]; [|discriminate H].
  injection H as -> ->. exists spf, dmarc, dkim, takeover, tried.
  repeat split; reflexivity.
Qed.

(** [worker] hands over what the evaluator returned, or the all-Error
    result when the evaluator raised. *)
Lemma worker_cases :
  let w := worker net domain known_dkim_selectors nameserver timeout in
  (exists r st,
      run (check_dns_records net domain known_dkim_selectors nameserver timeout) = (Ok r, st)
      /\ w = (Ok r, []))
  \/ (exists e st,
      run (check_dns_records net domain known_dkim_selectors nameserver timeout) = (Raise e, st)
      /\ w = (Ok (error_results domain), [ERROR domain e])).
Proof.
  unfold worker. destruct (run _) as [[r|e] st]; [left | right]; eauto.
Qed.

End Evaluation.

Lemma dkim_outcome_cases (net : network) (resolver : Resolver) (domain : string)
    (known_dkim_selectors : option (list string)) (dkim : string) (tried : list string) :
  dkim_outcome net resolver domain known_dkim_selectors = (Ok dkim, tried) ->
  (falsy_list known_dkim_selectors = true /\ dkim = "Unknown" /\ tried = [])
  \/ (falsy_list known_dkim_selectors = false
      /\ exists found : bool,
          sweep (dkim_probe net resolver domain) (selectors_of known_dkim_selectors)
          = (Ok found, tried)
          /\ dkim = verdict found).
Proof.
  unfold dkim_outcome. destruct (falsy_list known_dkim_selectors).
  - intros [= <- <-]. by left.
  - destruct (sweep _ _) as [[found|e] tried']; [|done].
    intros [= <- <-]. right. eauto.
Qed.

Lemma takeover_verdict_cases (answer : res (list string)) (takeover : string) :
  takeover_verdict answer = Ok takeover ->
  takeover = "No" \/ takeover = "Yes" \/ takeover = "Unknown".
Proof.
  unfold takeover_verdict. destruct answer as [?|e]; [intros [= <-]; by left|].
  destruct (is_NXDOMAIN e); [intros [= <-]; right; by left|].
  destruct (no_answer_or_dns e); [intros [= <-]; right; by right | done].
Qed.

(** ** The fields of a result *)

Lemma domain_result_fields (domain spf dkim dmarc vulnerable takeover : string) :
  let r := domain_result domain spf dkim dmarc vulnerable takeover in
  r !! "domain" = Some domain
  /\ r !! "SPF" = Some spf
  /\ r !! "DKIM" = Some dkim
  /\ r !! "DMARC" = Some dmarc
  /\ r !! "Vulnerable to Spoofing" = Some vulnerable
  /\ r !! "Potential Subdomain Takeover" = Some takeover.
Proof. repeat split; reflexivity. Qed.

(** C1. A result that is not the all-Error one has 'Vulnerable to Spoofing'
    = 'No' exactly when SPF and DMARC are both 'Pass', and 'Yes' in every
    other case. *)
Theorem spoofing_no_iff_spf_and_dmarc_pass
    (net : network) (domain : string) (known_dkim_selectors : option (list string))
    (nameserver : option string) (timeout : float)
    (r : gmap string string) (printed : list line) :
  worker net domain known_dkim_selectors nameserver timeout = (Ok r, printed) ->
  r <> error_results domain ->
  (r !! "Vulnerable to Spoofing" = Some "No"
   <-> r !! "SPF" = Some "Pass" /\ r !! "DMARC" = Some "Pass")
  /\ (~ (r !! "SPF" = Some "Pass" /\ r !! "DMARC" = Some "Pass")
      -> r !! "Vulnerable to Spoofing" = Some "Yes").
Proof.
  intros Hw Hne.
  destruct (worker_cases net domain known_dkim_selectors nameserver timeout)
    as [(r' & st & Hrun & Hw') | (e & st & _ & Hw')];
    rewrite Hw in Hw'; injection Hw' as -> _; [|done].
  apply check_dns_records_ok in Hrun
    as (spf & dmarc & dkim & takeover & tried & _ & _ & _ & _ & _ & -> & _).
  destruct (domain_result_fields domain (verdict spf) dkim (verdict dmarc)
              (if spf && dmarc then "No" else "Yes") takeover)
    as (_ & -> & _ & -> & -> & _).
  destruct spf, dmarc; cbn; intuition congruence.
Qed.

Lemma spoofing_no_iff_spf_and_dmarc_pass_witness :
  let r := domain_result "good.com" "Pass" "Pass" "Pass" "No" "No" in
  worker example_net "good.com" (Some default_selectors) None 3 = (Ok r, [])
  /\ r <> error_results "good.com"
  /\ (r !! "Vulnerable to Spoofing" = Some "No"
      <-> r !! "SPF" = Some "Pass" /\ r !! "DMARC" = Some "Pass")
  /\ (~ (r !! "SPF" = Some "Pass" /\ r !! "DMARC" = Some "Pass")
      -> r !! "Vulnerable to Spoofing" = Some "Yes").
Proof.
  assert (Hw : worker example_net "good.com" (Some default_selectors) None 3
               = (Ok (domain_result "good.com" "Pass" "Pass" "Pass" "No" "No"), []))
    by reflexivity.
  assert (Hne : domain_result "good.com" "Pass" "Pass" "Pass" "No" "No"
                <> error_results "good.com")
    by (intros H; apply (f_equal (fun m => m !! "SPF")) in H; vm_compute in H;
        discriminate H).
  split; [exact Hw|]. split; [exact Hne|].
  exact (spoofing_no_iff_spf_and_dmarc_pass _ _ _ _ _ _ _ Hw Hne).
Defined.

(** C9. With a non-empty selector list, a result that is not the all-Error
    one has DKIM 'Pass' or 'Fail'; a result whose DKIM is 'Unknown' was
    computed with an empty or absent selector list. *)
Theorem dkim_unknown_only_without_selectors
    (net : network) (domain : string) (known_dkim_selectors : option (list string))
    (nameserver : option string) (timeout : float)
    (r : gmap string string) (printed : list line) :
  worker net domain known_dkim_selectors nameserver timeout = (Ok r, printed) ->
  (r <> error_results domain ->
   (exists s rest, known_dkim_selectors = Some (s :: rest)) ->
   r !! "DKIM" = Some "Pass" \/ r !! "DKIM" = Some "Fail")
  /\ (r !! "DKIM" = Some "Unknown" ->
      known_dkim_selectors = None \/ known_dkim_selectors = Some []).
Proof.
  intros Hw.
  destruct (worker_cases net domain known_dkim_selectors nameserver timeout)
    as [(r' & st & Hrun & Hw') | (e & st & _ & Hw')];
    rewrite Hw in Hw'; injection Hw' as -> _.
  - apply check_dns_records_ok in Hrun
      as (spf & dmarc & dkim & takeover & tried & _ & _ & _ & Hdkim & _ & -> & _).
    destruct (domain_result_fields domain (verdict spf) dkim (verdict dmarc)
                (if spf && dmarc then "No" else "Yes") takeover)
      as (_ & _ & -> & _).
    apply dkim_outcome_cases in Hdkim as [(Hf & -> & _) | (Hf & found & _ & ->)].
    + split.
      * intros _ (s & rest & ->). discriminate Hf.
      * intros _. destruct known_dkim_selectors as [[|]|]; auto; discriminate Hf.
    + split.
      * intros _ _. destruct found; auto.
      * destruct found; intros [=].
  - split; [done|]. intros [=].
Qed.

Lemma dkim_unknown_only_without_selectors_witness :
  let r := domain_result "good.com" "Pass" "Pass" "Pass" "No" "No" in
  worker example_net "good.com" (Some default_selectors) None 3 = (Ok r, [])
  /\ (r <> error_results "good.com" ->
      (exists s rest, Some default_selectors = Some (s :: rest)) ->
      r !! "DKIM" = Some "Pass" \/ r !! "DKIM" = Some "Fail")
  /\ (r !! "DKIM" = Some "Unknown" ->
      Some default_selectors = None \/ Some default_selectors = Some []).
Proof.
  assert (Hw : worker example_net "good.com" (Some default_selectors) None 3
               = (Ok (domain_result "good.com" "Pass" "Pass" "Pass" "No" "No"), []))
    by reflexivity.
  split; [exact Hw|].
  exact (dkim_unknown_only_without_selectors _ _ _ _ _ _ _ Hw).
Defined.

(** C7, as the code has it.  With an empty or absent selector list no DKIM
    query is sent, and the result is the all-Error one or has DKIM
    'Unknown'. *)
Theorem no_selectors_dkim_unknown_or_error
    (net : network) (domain : string) (known_dkim_selectors : option (list string))
    (nameserver : option string) (timeout : float)
    (r : gmap string string) (printed : list line) :
  known_dkim_selectors = None \/ known_dkim_selectors = Some [] ->
  worker net domain known_dkim_selectors nameserver timeout = (Ok r, printed) ->
  (r = error_results domain \/ r !! "DKIM" = Some "Unknown")
  /\ queries (snd (run (check_dns_records net domain known_dkim_selectors
                                          nameserver timeout)))
     `prefix_of` [(domain, TXT); (dmarc_domain domain, TXT); (domain, A)].
Proof.
  intros Hnone Hw.
  assert (Hf : falsy_list known_dkim_selectors = true)
    by (destruct Hnone as [-> | ->]; reflexivity).
  split.
  - destruct (worker_cases net domain known_dkim_selectors nameserver timeout)
      as [(r' & st & Hrun & Hw') | (e & st & _ & Hw')];
      rewrite Hw in Hw'; injection Hw' as -> _; [right | by left].
    apply check_dns_records_ok in Hrun
      as (spf & dmarc & dkim & takeover & tried & _ & _ & _ & Hdkim & _ & -> & _).
    apply dkim_outcome_cases in Hdkim as [(_ & -> & _) | (Hf' & _)];
      [reflexivity | congruence].
  - pose proof (check_dns_records_run net domain known_dkim_selectors nameserver timeout)
      as H.
    apply (f_equal snd) in H. cbn [observe snd] in H. rewrite H.
    unfold evaluation, dkim_outcome. rewrite Hf.
    destruct (resolver_configuration net); [|by eexists].
    destruct (refused net _); [by eexists|].
    destruct (lookup_verdict validate_spf _); [|by eexists].
    destruct (lookup_verdict validate_dmarc _); [|by eexists].
    destruct (takeover_verdict _); by eexists.
Qed.

Lemma no_selectors_dkim_unknown_or_error_witness :
  let r := domain_result "bad.com" "Fail" "Unknown" "Fail" "Yes" "Yes" in
  (Some [] = (None : option (list string)) \/ Some [] = Some ([] : list string))
  /\ worker example_net "bad.com" (Some []) None 3 = (Ok r, [])
  /\ (r = error_results "bad.com" \/ r !! "DKIM" = Some "Unknown")
  /\ queries (snd (run (check_dns_records example_net "bad.com" (Some []) None 3)))
     `prefix_of` [("bad.com", TXT); (dmarc_domain "bad.com", TXT); ("bad.com", A)].
Proof.
  assert (Hsel : Some [] = (None : option (list string)) \/ Some [] = Some ([] : list string)) by (by right).
  assert (Hw : worker example_net "bad.com" (Some []) None 3
               = (Ok (domain_result "bad.com" "Fail" "Unknown" "Fail" "Yes" "Yes"), []))
    by reflexivity.
  split; [exact Hsel|]. split; [exact Hw|].
  exact (no_selectors_dkim_unknown_or_error _ _ _ _ _ _ _ Hsel Hw).
Defined.

(** C7, as stated, fails: with an empty selector list, a domain whose TXT
    answer holds bytes that are not UTF-8 gets the all-Error result, whose
    DKIM is 'Error'. *)
Lemma no_selectors_dkim_error :
  worker example_net "garbled.example" (Some []) None 3
  = (Ok (error_results "garbled.example"), [ERROR "garbled.example" UnicodeDecodeError])
  /\ error_results "garbled.example" !! "DKIM" = Some "Error"
  /\ error_results "garbled.example" !! "DKIM" <> Some "Unknown".
Proof. repeat split; [reflexivity..|]. intros [=]. Qed.

(** ** The takeover heuristic *)

Lemma A_queries_dkim (domain : string) (tried : list string) :
  A_queries (map (dkim_query domain) tried) = [].
Proof. induction tried as [|s tried IH]; [reflexivity | exact IH]. Qed.

Lemma A_queries_app (l1 l2 : list query) :
  A_queries (l1 ++ l2) = (A_queries l1 ++ A_queries l2)%list.
Proof. apply List.filter_app. Qed.

Lemma A_queries_elem (q : query) (log : list query) :
  q ∈ log -> is_A_query q = true -> q ∈ A_queries log.
Proof.
  intros Hin Hq. apply list_elem_of_In, List.filter_In. split; [|exact Hq].
  by apply list_elem_of_In.
Qed.

(** C3. Once the address query for the apex is sent, its outcome alone sets
    the takeover field: NXDOMAIN gives 'Yes', an answer gives 'No', and no
    answer, a timeout or any other DNS failure leaves 'Unknown'; it is the
    only address query of the evaluation. *)
Theorem takeover_from_apex_A_query
    (net : network) (domain : string) (known_dkim_selectors : option (list string))
    (nameserver : option string) (timeout : float) :
  let out := run (check_dns_records net domain known_dkim_selectors nameserver timeout) in
  let answer := answer_A net (configured nameserver timeout) domain in
  (domain, A) ∈ queries (snd out) ->
  A_queries (queries (snd out)) = [(domain, A)]
  /\ (answer = Raise NXDOMAIN ->
      exists r, fst out = Ok r /\ r !! "Potential Subdomain Takeover" = Some "Yes")
  /\ (forall addresses, answer = Ok addresses ->
      exists r, fst out = Ok r /\ r !! "Potential Subdomain Takeover" = Some "No")
  /\ (forall e, answer = Raise e ->
      e ∈ [NoAnswer; LifetimeTimeout; NoNameservers; DNSException] ->
      exists r, fst out = Ok r /\ r !! "Potential Subdomain Takeover" = Some "Unknown").
Proof.
  intros out answer Hsent.
  pose proof (check_dns_records_run net domain known_dkim_selectors nameserver timeout)
    as H.
  unfold observe in H. fold out in H.
  assert (Hlog : queries (snd out) = snd (evaluation net domain known_dkim_selectors nameserver timeout))
    by (by rewrite <- H).
  assert (Hout : fst out = fst (evaluation net domain known_dkim_selectors nameserver timeout))
    by (by rewrite <- H).
  rewrite Hlog in *. rewrite Hout. clear H Hlog Hout.
  apply A_queries_elem in Hsent; [|reflexivity].
  revert Hsent. unfold evaluation. fold answer.
  destruct (resolver_configuration net); [|by intros ?%elem_of_nil].
  destruct (refused net _); [by intros ?%elem_of_nil|].
  destruct (lookup_verdict validate_spf _) as [spf|]; [|by intros ?%elem_of_nil].
  destruct (lookup_verdict validate_dmarc _) as [dmarc|]; [|by intros ?%elem_of_nil].
  destruct (dkim_outcome _ _ _ _) as [[dkim|] tried]; cbn [fst snd].
  2:{ cbn [app A_queries List.filter is_A_query snd]. fold (A_queries (map (dkim_query domain) tried)).
      rewrite A_queries_dkim. by intros ?%elem_of_nil. }
  intros _.
  assert (Hq : A_queries (([(domain, TXT); (dmarc_domain domain, TXT)]
                           ++ map (dkim_query domain) tried) ++ [(domain, A)])
               = [(domain, A)]).
  { rewrite !A_queries_app, A_queries_dkim. reflexivity. }
  split; [by destruct (takeover_verdict answer)|].
  split; [|split].
  - intros ->. eexists. split; reflexivity.
  - intros addresses ->. eexists. split; reflexivity.
  - intros e -> He. rewrite !elem_of_cons, elem_of_nil in He.
    destruct He as [-> | [-> | [-> | [-> | []]]]]; eexists; split; reflexivity.
Qed.

Lemma takeover_from_apex_A_query_witness :
  let out := run (check_dns_records example_net "gone.example"
                                    (Some default_selectors) None 3) in
  let answer := example_A "gone.example" in
  (("gone.example", A) ∈ queries (snd out))
  /\ A_queries (queries (snd out)) = [("gone.example", A)]
  /\ (answer = Raise NXDOMAIN ->
      exists r, fst out = Ok r /\ r !! "Potential Subdomain Takeover" = Some "Yes")
  /\ (forall addresses, answer = Ok addresses ->
      exists r, fst out = Ok r /\ r !! "Potential Subdomain Takeover" = Some "No")
  /\ (forall e, answer = Raise e ->
      e ∈ [NoAnswer; LifetimeTimeout; NoNameservers; DNSException] ->
      exists r, fst out = Ok r /\ r !! "Potential Subdomain Takeover" = Some "Unknown").
Proof.
  assert (Hsent : ("gone.example", A)
                  ∈ queries (snd (run (check_dns_records example_net "gone.example"
                                         (Some default_selectors) None 3)))).
  { apply list_elem_of_In. vm_compute. repeat (first [left; reflexivity | right]). }
  split; [exact Hsent|].
  exact (takeover_from_apex_A_query example_net "gone.example"
           (Some default_selectors) None 3 Hsent).
Defined.

(** ** Lookups and the selector sweep *)

Lemma first_valid_true (validate : string -> bool) (answers : list rdata) :
  first_valid validate answers = Ok true <-> yields_valid validate (Ok answers).
Proof.
  unfold yields_valid. induction answers as [|r rest IH]; cbn [first_valid].
  - split; [done|]. intros (before & r & after & [= H] & _). by destruct before.
  - destruct (combined r) as [text|e] eqn:Hr.
    + destruct (validate text) eqn:Hv.
      * split; [intros _ | done]. exists [], r, rest.
        repeat split; [constructor|]. by exists text.
      * rewrite IH. split.
        -- intros (before & r' & after & [= ->] & Hbefore & Hvalid).
           exists (r :: before), r', after. repeat split; [|done].
           constructor; [by exists text | done].
        -- intros (before & r' & after & [= H] & Hbefore & Hvalid).
           destruct before as [|r0 before]; cbn in H.
           ++ injection H as <- <-. destruct Hvalid as (text' & ? & ?). congruence.
           ++ injection H as <- ->. inversion_clear Hbefore.
              by exists before, r', after.
    + split; [done|].
      intros (before & r' & after & [= H] & Hbefore & Hvalid).
      destruct before as [|r0 before]; cbn in H.
      * injection H as <- <-. destruct Hvalid as (text' & ? & ?). congruence.
      * injection H as <- ->. inversion_clear Hbefore as [|? ? (text' & ? & ?)].
        congruence.
Qed.

Lemma first_valid_false (validate : string -> bool) (answers : list rdata) :
  first_valid validate answers = Ok false <-> Forall (invalid_record validate) answers.
Proof.
  induction answers as [|r rest IH]; cbn [first_valid].
  - split; [constructor | done].
  - destruct (combined r) as [text|e] eqn:Hr.
    + destruct (validate text) eqn:Hv.
      * split; [done|]. intros H. inversion_clear H as [|? ? (text' & ? & ?)].
        congruence.
      * rewrite IH. split.
        -- intros H. constructor; [by exists text | done].
        -- intros H. by inversion_clear H.
    + split; [done|]. intros H. inversion_clear H as [|? ? (text' & ? & ?)].
      congruence.
Qed.

Lemma lookup_verdict_true (validate : string -> bool) (answer : res (list rdata)) :
  lookup_verdict validate answer = Ok true <-> yields_valid validate answer.
Proof.
  destruct answer as [answers|e]; cbn [lookup_verdict].
  - apply first_valid_true.
  - split.
    + by destruct (lookup_failure e).
    + by intros (before & r & after & [=] & _).
Qed.

Lemma lookup_verdict_false (validate : string -> bool) (answer : res (list rdata)) :
  lookup_verdict validate answer = Ok false <-> yields_none validate answer.
Proof.
  unfold yields_none. destruct answer as [answers|e]; cbn [lookup_verdict].
  - rewrite first_valid_false. split.
    + intros H. right. by exists answers.
    + intros [(e & [=] & _) | (answers' & [= <-] & H)]. done.
  - split.
    + destruct (lookup_failure e) eqn:He; [|done]. intros _. left. by exists e.
    + intros [(e' & [= <-] & ->) | (answers' & [=] & _)]. done.
Qed.

Lemma sweep_found (probe : string -> res bool) (selectors tried : list string) :
  sweep probe selectors = (Ok true, tried) ->
  exists before s after,
    selectors = (before ++ s :: after)%list
    /\ tried = (before ++ [s])%list
    /\ Forall (fun x => probe x = Ok false) before
    /\ probe s = Ok true.
Proof.
  revert tried. induction selectors as [|s rest IH]; intros tried; cbn [sweep]; [done|].
  destruct (probe s) as [[|]|e] eqn:Hs.
  - intros [= <-]. by exists [], s, rest.
  - destruct (sweep probe rest) as [r tried'] eqn:Hrest. intros [= -> <-].
    destruct (IH tried' eq_refl) as (before & s' & after & -> & -> & Hbefore & Hs').
    exists (s :: before), s', after. repeat split; [|done]. by constructor.
  - done.
Qed.

Lemma sweep_not_found (probe : string -> res bool) (selectors tried : list string) :
  sweep probe selectors = (Ok false, tried) ->
  tried = selectors /\ Forall (fun x => probe x = Ok false) selectors.
Proof.
  revert tried. induction selectors as [|s rest IH]; intros tried; cbn [sweep].
  - intros [= <-]. by split.
  - destruct (probe s) as [[|]|e] eqn:Hs; [done| |done].
    destruct (sweep probe rest) as [r tried'] eqn:Hrest. intros [= -> <-].
    destruct (IH tried' eq_refl) as [-> Hall]. split; [done | by constructor].
Qed.

(** C4. With a non-empty selector list the DKIM lookups are sent in the
    configured order, between the DMARC lookup and the address query.  DKIM
    is 'Pass' when a selector yields a valid record, every selector before it
    yields none (a failed lookup counts as none and does not stop the sweep)
    and no selector after it is queried; DKIM is 'Fail' when every selector
    was queried and none yields a valid record. *)
Theorem dkim_sweep_in_selector_order
    (net : network) (domain : string) (s0 : string) (rest0 : list string)
    (nameserver : option string) (timeout : float)
    (r : gmap string string) (st : state) :
  run (check_dns_records net domain (Some (s0 :: rest0)) nameserver timeout) = (Ok r, st) ->
  let answer_for selector :=
    answer_TXT net (configured nameserver timeout) (dkim_domain selector domain) in
  exists tried : list string,
    queries st = ([(domain, TXT); (dmarc_domain domain, TXT)]
                  ++ map (dkim_query domain) tried ++ [(domain, A)])%list
    /\ ((r !! "DKIM" = Some "Pass"
         /\ exists before s after,
             s0 :: rest0 = (before ++ s :: after)%list
             /\ tried = (before ++ [s])%list
             /\ Forall (fun x => yields_none validate_dkim (answer_for x)) before
             /\ yields_valid validate_dkim (answer_for s))
        \/ (r !! "DKIM" = Some "Fail"
            /\ tried = s0 :: rest0
            /\ Forall (fun x => yields_none validate_dkim (answer_for x)) (s0 :: rest0))).
Proof.
  intros Hrun answer_for.
  apply check_dns_records_ok in Hrun
    as (spf & dmarc & dkim & takeover & tried & _ & _ & _ & Hdkim & _ & -> & Hlog).
  exists tried. split; [exact Hlog|].
  destruct (domain_result_fields domain (verdict spf) dkim (verdict dmarc)
              (if spf && dmarc then "No" else "Yes") takeover)
    as (_ & _ & -> & _).
  apply dkim_outcome_cases in Hdkim as [(Hf & _) | (_ & found & Hsweep & ->)];
    [discriminate Hf|].
  cbn [selectors_of] in Hsweep. destruct found.
  - left. split; [reflexivity|].
    apply sweep_found in Hsweep as (before & s & after & Hsel & -> & Hbefore & Hs).
    exists before, s, after. repeat split; [exact Hsel| |by apply lookup_verdict_true].
    eapply Forall_impl; [exact Hbefore|]. intros x Hx. by apply lookup_verdict_false.
  - right. split; [reflexivity|].
    apply sweep_not_found in Hsweep as [-> Hall]. split; [reflexivity|].
    eapply Forall_impl; [exact Hall|]. intros x Hx. by apply lookup_verdict_false.
Qed.

Lemma dkim_sweep_in_selector_order_witness :
  let r := domain_result "good.com" "Pass" "Pass" "Pass" "No" "No" in
  let st := snd (run (check_dns_records example_net "good.com"
                        (Some default_selectors) None 3)) in
  let answer_for selector := example_TXT (dkim_domain selector "good.com") in
  run (check_dns_records example_net "good.com" (Some default_selectors) None 3)
  = (Ok r, st)
  /\ exists tried : list string,
      queries st = ([("good.com", TXT); (dmarc_domain "good.com", TXT)]
                    ++ map (dkim_query "good.com") tried ++ [("good.com", A)])%list
      /\ ((r !! "DKIM" = Some "Pass"
           /\ exists before s after,
               default_selectors = (before ++ s :: after)%list
               /\ tried = (before ++ [s])%list
               /\ Forall (fun x => yields_none validate_dkim (answer_for x)) before
               /\ yields_valid validate_dkim (answer_for s))
          \/ (r !! "DKIM" = Some "Fail"
              /\ tried = default_selectors
              /\ Forall (fun x => yields_none validate_dkim (answer_for x))
                        default_selectors)).
Proof.
  assert (Hrun : run (check_dns_records example_net "good.com"
                        (Some default_selectors) None 3)
                 = (Ok (domain_result "good.com" "Pass" "Pass" "Pass" "No" "No"),
                    snd (run (check_dns_records example_net "good.com"
                                (Some default_selectors) None 3))))
    by reflexivity.
  split; [exact Hrun|].
  exact (dkim_sweep_in_selector_order example_net "good.com" "default"
           ["selector1"; "selector2"; "mail"] None 3 _ _ Hrun).
Defined.

(** ** Multi-segment records *)

Lemma first_valid_decoded (validate : string -> bool) (answers : list rdata)
    (textss : list (list string)) :
  Forall2 (fun rd texts => decode_all (strings rd) = Ok texts) answers textss ->
  first_valid validate answers = Ok (existsb (fun texts => validate (join texts)) textss).
Proof.
  induction 1 as [|rd texts answers textss Hrd _ IH]; cbn [first_valid existsb];
    [reflexivity|].
  unfold combined. rewrite Hrd. by destruct (validate (join texts)).
Qed.

Lemma existsb_Exists_true {T} (f : T -> bool) (l : list T) :
  existsb f l = true <-> Exists (fun x => f x = true) l.
Proof.
  induction l as [|x l IH]; cbn [existsb].
  - split; [done | by intros ?%Exists_nil].
  - rewrite orb_true_iff, Exists_cons, IH. reflexivity.
Qed.

(** C5. The SPF verdict is taken on the texts of the records, each being the
    segments of the record decoded and joined in segment order: SPF is 'Pass'
    exactly when the joined text of some record validates.  The record split
    as 'v=spf1 ', 'include:example.com ', '-all' gives 'Pass', although none
    of its three segments validates alone. *)
Theorem spf_validated_on_joined_segments
    (net : network) (domain : string) (known_dkim_selectors : option (list string))
    (nameserver : option string) (timeout : float)
    (r : gmap string string) (st : state)
    (answers : list rdata) (textss : list (list string)) :
  run (check_dns_records net domain known_dkim_selectors nameserver timeout) = (Ok r, st) ->
  answer_TXT net (configured nameserver timeout) domain = Ok answers ->
  Forall2 (fun rd texts => decode_all (strings rd) = Ok texts) answers textss ->
  (r !! "SPF" = Some "Pass"
   <-> Exists (fun texts => validate_spf (join texts) = true) textss)
  /\ (answers = [Rdata [b "v=spf1 "; b "include:example.com "; b "-all"]] ->
      textss = [["v=spf1 "; "include:example.com "; "-all"]]
      /\ r !! "SPF" = Some "Pass"
      /\ Forall (fun text => validate_spf text = false)
                ["v=spf1 "; "include:example.com "; "-all"]).
Proof.
  intros Hrun Hanswer Hdecoded.
  apply check_dns_records_ok in Hrun
    as (spf & dmarc & dkim & takeover & tried & _ & Hspf & _ & _ & _ & -> & _).
  destruct (domain_result_fields domain (verdict spf) dkim (verdict dmarc)
              (if spf && dmarc then "No" else "Yes") takeover)
    as (_ & -> & _).
  rewrite Hanswer in Hspf. cbn [lookup_verdict] in Hspf.
  rewrite (first_valid_decoded _ _ _ Hdecoded) in Hspf. injection Hspf as <-.
  split.
  - rewrite <- existsb_Exists_true.
    destruct (existsb _ textss); cbn; intuition congruence.
  - intros ->. inversion Hdecoded as [|? texts ? ? Htexts Hrest]; subst.
    inversion Hrest; subst. vm_compute in Htexts. injection Htexts as <-.
    repeat split; repeat constructor.
Qed.

Lemma spf_validated_on_joined_segments_witness :
  let r := domain_result "good.com" "Pass" "Pass" "Pass" "No" "No" in
  let st := snd (run (check_dns_records example_net "good.com"
                        (Some default_selectors) None 3)) in
  let answers := [Rdata [b "v=spf1 "; b "include:example.com "; b "-all"]] in
  let textss := [["v=spf1 "; "include:example.com "; "-all"]] in
  run (check_dns_records example_net "good.com" (Some default_selectors) None 3)
  = (Ok r, st)
  /\ example_TXT "good.com" = Ok answers
  /\ Forall2 (fun rd texts => decode_all (strings rd) = Ok texts) answers textss
  /\ (r !! "SPF" = Some "Pass"
      <-> Exists (fun texts => validate_spf (join texts) = true) textss)
  /\ (answers = [Rdata [b "v=spf1 "; b "include:example.com "; b "-all"]] ->
      textss = [["v=spf1 "; "include:example.com "; "-all"]]
      /\ r !! "SPF" = Some "Pass"
      /\ Forall (fun text => validate_spf text = false)
                ["v=spf1 "; "include:example.com "; "-all"]).
Proof.
  assert (Hrun : run (check_dns_records example_net "good.com"
                        (Some default_selectors) None 3)
                 = (Ok (domain_result "good.com" "Pass" "Pass" "Pass" "No" "No"),
                    snd (run (check_dns_records example_net "good.com"
                                (Some default_selectors) None 3))))
    by reflexivity.
  assert (Hanswer : example_TXT "good.com"
                    = Ok [Rdata [b "v=spf1 "; b "include:example.com "; b "-all"]])
    by reflexivity.
  assert (Hdecoded : Forall2 (fun rd texts => decode_all (strings rd) = Ok texts)
                       [Rdata [b "v=spf1 "; b "include:example.com "; b "-all"]]
                       [["v=spf1 "; "include:example.com "; "-all"]])
    by (repeat constructor).
  split; [exact Hrun|]. split; [exact Hanswer|]. split; [exact Hdecoded|].
  exact (spf_validated_on_joined_segments example_net "good.com"
           (Some default_selectors) None 3 _ _ _ _ Hrun Hanswer Hdecoded).
Defined.

(** ** The collecting loop *)

Section Scan.

Variable net : network.
Variable known_dkim_selectors : option (list string).
Variable nameserver : option string.
Variable timeout : float.

Lemma worker_reported (domain : string) :
  fst (worker net domain known_dkim_selectors nameserver timeout)
  = Ok (reported net known_dkim_selectors nameserver timeout domain).
Proof. unfold worker, reported. by destruct (run _) as [[r|e] st]. Qed.

Lemma reported_cases (domain : string) :
  let r := reported net known_dkim_selectors nameserver timeout domain in
  r = error_results domain
  \/ exists (spf dmarc : bool) (dkim takeover : string),
      r = domain_result domain (verdict spf) dkim (verdict dmarc)
                        (if spf && dmarc then "No" else "Yes") takeover
      /\ (dkim = "Unknown" \/ dkim = "Pass" \/ dkim = "Fail")
      /\ (takeover = "No" \/ takeover = "Yes" \/ takeover = "Unknown").
Proof.
  unfold reported.
  destruct (run _) as [[r|e] st] eqn:Hrun; cbn [fst]; [right | by left].
  apply check_dns_records_ok in Hrun
    as (spf & dmarc & dkim & takeover & tried & _ & _ & _ & Hdkim & Htakeover & -> & _).
  exists spf, dmarc, dkim, takeover. split; [reflexivity|]. split.
  - apply dkim_outcome_cases in Hdkim as [(_ & -> & _) | (_ & [|] & _ & ->)]; auto.
  - by eapply takeover_verdict_cases.
Qed.

Lemma reported_populated (domain : string) :
  populated (reported net known_dkim_selectors nameserver timeout domain) = true.
Proof.
  destruct (reported_cases domain)
    as [-> | (spf & dmarc & dkim & takeover & -> & Hdkim & Htakeover)];
    [reflexivity|].
  destruct Hdkim as [-> | [-> | ->]], Htakeover as [-> | [-> | ->]], spf, dmarc;
    reflexivity.
Qed.

Lemma reported_domain (domain : string) :
  reported net known_dkim_selectors nameserver timeout domain !! "domain" = Some domain.
Proof.
  destruct (reported_cases domain)
    as [-> | (spf & dmarc & dkim & takeover & -> & _)]; reflexivity.
Qed.

Lemma Forall_imap {T U} (P : U -> Prop) (f : nat -> T -> U) (l : list T) :
  (forall i x, P (f i x)) -> Forall P (imap f l).
Proof.
  revert f. induction l as [|x l IH]; intros f Hf; cbn [imap]; constructor; [done|].
  apply IH. intros i y. apply Hf.
Qed.

Lemma map_snd_imap {T U} (g : nat -> T -> U) (l : list T) :
  map snd (imap (fun i x => (g i x, x)) l) = l.
Proof.
  revert g. induction l as [|x l IH]; intros g; cbn [imap map snd]; [done|].
  f_equal. apply (IH (fun i => g (S i))).
Qed.

Lemma future_to_domain_results (domains : list string) :
  Forall (fun entry =>
            fut_result (fst entry)
            = Ok (reported net known_dkim_selectors nameserver timeout (snd entry)))
         (future_to_domain net known_dkim_selectors nameserver timeout domains).
Proof. apply Forall_imap. intros i domain. apply worker_reported. Qed.

Lemma future_to_domain_domains (domains : list string) :
  map snd (future_to_domain net known_dkim_selectors nameserver timeout domains) = domains.
Proof. apply map_snd_imap. Qed.

Lemma collect_run (total_count : nat) (f : future * string -> gmap string string)
    (order : list (future * string)) (c : collector) :
  Forall (fun entry => fut_result (fst entry) = Ok (f entry)) order ->
  fold_left (collect_one total_count) order c =
  Collector (results_list c ++ map f order)
            (completed_count c + length order)
            (console c ++
             imap (fun i entry =>
                     INFO (snd entry) (completed_count c + S i) total_count
                          (format_2f (percentage (completed_count c + S i) total_count)))
                  order).
Proof.
  revert c. induction order as [|entry order IH]; intros c Hall; cbn [fold_left].
  - cbn. rewrite !app_nil_r, Nat.add_0_r. by destruct c.
  - inversion_clear Hall as [|? ? Hentry Hrest]. rewrite (IH _ Hrest).
    unfold collect_one. rewrite Hentry. cbn [results_list completed_count console].
    cbn [map imap length]. rewrite <- !app_assoc. cbn [app]. f_equal.
    + lia.
    + do 2 f_equal. apply imap_ext. intros i x _. cbn.
      by replace (completed_count c + 1 + S i) with (completed_count c + S (S i)) by lia.
Qed.

Lemma progress_INFO (domain : string) (completed total : nat) (percent : string)
    (lines : list line) :
  progress (INFO domain completed total percent :: lines)
  = (completed, total, percent) :: progress lines.
Proof. reflexivity. Qed.

Lemma progress_imap {T} (total_count k : nat) (d : T -> string) (l : list T) :
  progress (imap (fun i x => INFO (d x) (k + S i) total_count
                              (format_2f (percentage (k + S i) total_count))) l)
  = map (fun j => (j, total_count, format_2f (percentage j total_count)))
        (seq (S k) (length l)).
Proof.
  revert k. induction l as [|x l IH]; intros k; [reflexivity|].
  rewrite imap_cons, progress_INFO. cbn [length seq map].
  rewrite Nat.add_1_r. f_equal.
  rewrite <- (IH (S k)). f_equal. apply imap_ext. intros i y _. cbn.
  by rewrite (Nat.add_succ_r k (S i)).
Qed.

End Scan.

(** C2. Whatever the order in which the tasks complete, the result list
    holds, completion by completion, what the scan reports for the domain of
    that task: the dictionary its evaluation returned, or the all-Error one
    when the evaluation raised.  So the results are those of the domain list
    up to order, a domain listed twice being reported twice, each result
    carries its domain, and each has its six fields filled in. *)
Theorem one_result_per_domain
    (net : network) (known_dkim_selectors : option (list string))
    (nameserver : option string) (timeout : float)
    (domains : list string) (order : list (future * string)) :
  order ≡ₚ future_to_domain net known_dkim_selectors nameserver timeout domains ->
  let c := collect (length domains) order in
  results_list c
  = map (fun entry => reported net known_dkim_selectors nameserver timeout (snd entry)) order
  /\ results_list c ≡ₚ map (reported net known_dkim_selectors nameserver timeout) domains
  /\ omap (fun r : gmap string string => r !! "domain") (results_list c) ≡ₚ domains
  /\ Forall (fun r => populated r = true) (results_list c).
Proof.
  intros Hperm c.
  assert (Hall : Forall (fun entry =>
                           fut_result (fst entry)
                           = Ok (reported net known_dkim_selectors nameserver timeout
                                          (snd entry))) order).
  { rewrite Hperm. apply future_to_domain_results. }
  assert (Hsnd : map snd order ≡ₚ domains).
  { rewrite <- (future_to_domain_domains net known_dkim_selectors nameserver timeout domains).
    by apply Permutation_map. }
  assert (Hc : results_list c
               = map (fun entry => reported net known_dkim_selectors nameserver timeout
                                            (snd entry)) order).
  { unfold c, collect. by rewrite (collect_run _ _ _ _ Hall). }
  split; [exact Hc|]. rewrite Hc. split; [|split].
  - rewrite <- (map_map snd (reported net known_dkim_selectors nameserver timeout)).
    by apply Permutation_map.
  - rewrite <- Hsnd. clear. induction order as [|entry order IH]; [reflexivity|].
    cbn [map omap list_omap]. rewrite reported_domain. by constructor.
  - apply Forall_forall. intros r Hr. apply list_elem_of_In, in_map_iff in Hr as (entry & <- & _).
    apply reported_populated.
Qed.

(** ** The percentage of a progress line *)

Lemma two_digits_tens (r : Z) :
  (0 <= r < 100)%Z -> two_digits r = pretty (r / 10)%Z ++ pretty (r mod 10)%Z.
Proof.
  intros Hr.
  assert (H : forallb (fun n => String.eqb (two_digits (Z.of_nat n))
                                  (pretty (Z.of_nat n / 10)%Z
                                   ++ pretty (Z.of_nat n mod 10)%Z))
                      (seq 0 100) = true) by (vm_compute; reflexivity).
  rewrite forallb_forall in H. specialize (H (Z.to_nat r)).
  rewrite Z2Nat.id in H by lia. apply String.eqb_eq, H, in_seq. lia.
Qed.

Lemma round_half_even_nonneg (n e : Z) : (0 <= n)%Z -> (0 <= round_half_even n e)%Z.
Proof.
  intros Hn. unfold round_half_even. destruct (0 <=? e)%Z eqn:He.
  - apply Z.leb_le in He. apply Z.mul_nonneg_nonneg; [exact Hn|]. by apply Z.pow_nonneg.
  - apply Z.leb_gt in He.
    assert (Hd : (0 < 2 ^ (- e))%Z) by (apply Z.pow_pos_nonneg; lia).
    assert (Hq : (0 <= n / 2 ^ (- e))%Z) by (by apply Z.div_pos).
    cbv zeta. repeat case_match; lia.
Qed.

(** The text of a positive float. *)
Lemma format_2f_finite (x : float) (m : positive) (e : Z) :
  Prim2SF x = S754_finite false m e ->
  format_2f x = hundredths (round_half_even (Z.pos m * 100) e).
Proof.
  intros Hx. unfold format_2f, hundredths. rewrite Hx. cbv zeta.
  rewrite two_digits_tens by (apply Z.mod_pos_bound; lia). reflexivity.
Qed.

Lemma percent_checked_spec (bound N k : nat) :
  percent_checked bound = true -> N <= bound -> 1 <= k <= N -> percent_ok k N = true.
Proof.
  unfold percent_checked. intros H HN Hk.
  rewrite forallb_forall in H.
  assert (HN' : In N (seq 1 bound)) by (apply in_seq; lia).
  specialize (H N HN'). rewrite forallb_forall in H.
  apply H, in_seq. lia.
Qed.

Lemma percent_checked_300 : percent_checked 300 = true.
Proof. vm_cast_no_check (eq_refl true). Qed.

(** For a scan of at most 300 domains, the percentage printed after the k-th
    completion is a nearest hundredth to 100 k / N, written with two
    decimals. *)
Lemma percentage_text (k N : nat) :
  N <= 300 -> 1 <= k <= N ->
  exists h : Z,
    format_2f (percentage k N) = hundredths h
    /\ (Z.abs (2 * h * Z.of_nat N - 20000 * Z.of_nat k) <= Z.of_nat N)%Z.
Proof.
  intros HN Hk.
  pose proof (percent_checked_spec 300 N k percent_checked_300 HN Hk) as H.
  unfold percent_ok in H.
  destruct (Prim2SF (percentage k N)) as [| | |[] m e] eqn:Hx; try discriminate H.
  exists (round_half_even (Z.pos m * 100) e). split; [by apply format_2f_finite|].
  by apply Z.leb_le.
Qed.

(** C8. Whatever the order in which the tasks complete, [main] prints one
    progress line after each completion and nothing else: the line after the
    i-th completion names the domain of that task, the count i, the total N
    and the text of i/N*100 with two decimals.  So N lines are printed, and
    their counts are 1, 2, ..., N.  For a scan of at most 300 domains the
    text of the percentage is a number of hundredths written with two
    decimals that is within half a hundredth of 100 i / N. *)
Theorem progress_line_per_completion
    (net : network) (known_dkim_selectors : option (list string))
    (nameserver : option string) (timeout : float)
    (domains : list string) (order : list (future * string)) :
  order ≡ₚ future_to_domain net known_dkim_selectors nameserver timeout domains ->
  let N := length domains in
  let c := collect N order in
  console c
  = imap (fun i entry => INFO (snd entry) (S i) N (format_2f (percentage (S i) N))) order
  /\ progress (console c)
     = map (fun k => (k, N, format_2f (percentage k N))) (seq 1 N)
  /\ length (progress (console c)) = N
  /\ completed_count c = N
  /\ (N <= 300 ->
      forall k, 1 <= k <= N ->
      exists h : Z,
        format_2f (percentage k N) = hundredths h
        /\ (Z.abs (2 * h * Z.of_nat N - 20000 * Z.of_nat k) <= Z.of_nat N)%Z).
Proof.
  intros Hperm N c.
  assert (Hall : Forall (fun entry =>
                           fut_result (fst entry)
                           = Ok (reported net known_dkim_selectors nameserver timeout
                                          (snd entry))) order).
  { rewrite Hperm. apply future_to_domain_results. }
  assert (Hlen : length order = N).
  { rewrite Hperm. unfold future_to_domain. apply length_imap. }
  unfold c, collect. rewrite (collect_run _ _ _ _ Hall).
  cbn [console completed_count app Nat.add].
  split; [reflexivity|].
  assert (Hprogress :
            progress (imap (fun i (entry : future * string) =>
                              INFO (snd entry) (S i) N (format_2f (percentage (S i) N)))
                           order)
            = map (fun k => (k, N, format_2f (percentage k N))) (seq 1 N)).
  { pose proof (progress_imap N 0 snd order) as H. cbn [Nat.add] in H.
    by rewrite H, Hlen. }
  split; [exact Hprogress|]. split; [|split; [exact Hlen|]].
  - by rewrite Hprogress, length_map, length_seq.
  - intros HN k Hk. by apply percentage_text.
Qed.

Lemma example_order_complete :
  example_order
  ≡ₚ future_to_domain example_net (Some default_selectors) None 3 example_domains.
Proof. unfold example_order. symmetry. apply Permutation_rev. Qed.

Lemma one_result_per_domain_witness :
  let c := collect (length example_domains) example_order in
  let report := reported example_net (Some default_selectors) None 3 in
  example_order
  ≡ₚ future_to_domain example_net (Some default_selectors) None 3 example_domains
  /\ results_list c = map (fun entry => report (snd entry)) example_order
  /\ results_list c ≡ₚ map report example_domains
  /\ omap (fun r : gmap string string => r !! "domain") (results_list c)
     ≡ₚ example_domains
  /\ Forall (fun r => populated r = true) (results_list c).
Proof.
  split; [exact example_order_complete|].
  exact (one_result_per_domain example_net (Some default_selectors) None 3
           example_domains example_order example_order_complete).
Defined.

Lemma progress_line_per_completion_witness :
  let N := length example_domains in
  let c := collect N example_order in
  example_order
  ≡ₚ future_to_domain example_net (Some default_selectors) None 3 example_domains
  /\ console c
     = [INFO "good.com" 1 3 "33.33";
        INFO "garbled.example" 2 3 "66.67";
        INFO "good.com" 3 3 "100.00"]
  /\ progress (console c) = [(1, 3, "33.33"); (2, 3, "66.67"); (3, 3, "100.00")]
  /\ hundredths 3333 = "33.33" /\ hundredths 6667 = "66.67" /\ hundredths 10000 = "100.00"
  /\ (console c
      = imap (fun i entry => INFO (snd entry) (S i) N (format_2f (percentage (S i) N)))
             example_order
      /\ progress (console c)
         = map (fun k => (k, N, format_2f (percentage k N))) (seq 1 N)
      /\ length (progress (console c)) = N
      /\ completed_count c = N
      /\ (N <= 300 ->
          forall k, 1 <= k <= N ->
          exists h : Z,
            format_2f (percentage k N) = hundredths h
            /\ (Z.abs (2 * h * Z.of_nat N - 20000 * Z.of_nat k) <= Z.of_nat N)%Z)).
Proof.
  split; [exact example_order_complete|].
  split; [reflexivity|]. split; [reflexivity|].
  split; [reflexivity|]. split; [reflexivity|]. split; [reflexivity|].
  exact (progress_line_per_completion example_net (Some default_selectors) None 3
           example_domains example_order example_order_complete).
Defined.

(** The scan of [example_domains] run through: the three results in the
    order of completion, and the three progress lines. *)
Example example_scan :
  let c := collect (length example_domains) example_order in
  results_list c
  = [domain_result "good.com" "Pass" "Pass" "Pass" "No" "No";
     error_results "garbled.example";
     domain_result "good.com" "Pass" "Pass" "Pass" "No" "No"]
  /\ console c
     = [INFO "good.com" 1 3 "33.33";
        INFO "garbled.example" 2 3 "66.67";
        INFO "good.com" 3 3 "100.00"].
Proof. split; reflexivity. Qed.

(** Two domains scanned without selectors: one with a valid SPF record and a
    DMARC record with a reject policy, one with no TXT record at all. *)
Example example_without_selectors :
  fst (worker example_net "good.com" (Some []) None 3)
  = Ok (domain_result "good.com" "Pass" "Unknown" "Pass" "No" "No")
  /\ fst (worker example_net "bad.com" (Some []) None 3)
     = Ok (domain_result "bad.com" "Fail" "Unknown" "Fail" "Yes" "Yes").
Proof. split; reflexivity. Qed.

(** ** The validators *)

Example validate_spf_example : validate_spf "v=spf1 -all" = true.
Proof. reflexivity. Qed.

Example validate_dmarc_example : validate_dmarc "v=DMARC1; p=reject" = true.
Proof. reflexivity. Qed.

Example validate_dkim_example :
  validate_dkim "v=DKIM1; k=rsa; p=MIGf" = true /\ validate_dkim "v=DKIM1; k=rsa" = false.
Proof. split; reflexivity. Qed.

(** C6. [validate_spf] holds exactly of the texts whose lower-case form
    contains 'v=spf1' and contains 'all'.  Told without the lower-case form:
    exactly of the texts in which some stretch spells 'v=spf1' and some
    stretch spells 'all', each letter small or capital.  So 'V=SPF1 -ALL' is
    accepted, and so is a record with 'all' inside a name and no [all]
    mechanism. *)
Theorem validate_spf_iff_substrings (record_content : string) :
  (validate_spf record_content = true
   <-> substring "v=spf1" (lower record_content)
       /\ substring "all" (lower record_content))
  /\ (validate_spf record_content = true
      <-> occurs_ignoring_case "v=spf1" record_content
          /\ occurs_ignoring_case "all" record_content)
  /\ lower "V=SPF1 include:Example.COM -ALL" = "v=spf1 include:example.com -all"
  /\ validate_spf "V=SPF1 -ALL" = true
  /\ validate_spf "v=spf1 redirect=small.example" = true
  /\ validate_spf "v=spf1 a mx" = false.
Proof.
  split; [|split].
  - unfold validate_spf. cbv zeta. by rewrite andb_true_iff, !contains_spec.
  - unfold validate_spf. cbv zeta.
    by rewrite andb_true_iff, !contains_lower by reflexivity.
  - repeat split; reflexivity.
Qed.

(** C10. The record 'v=DMARC1; sp=none' has the tags v and sp and no tag p,
    and [validate_dmarc] accepts it: its lower-case form contains 'p=none',
    inside 'sp=none'. *)
Theorem validate_dmarc_accepts_sp_without_p :
  exists record_content : string,
    record_content = "v=DMARC1; sp=none"
    /\ tags record_content = ["v"; "sp"]
    /\ ("p" ∉ tags record_content)
    /\ lower record_content = ("v=dmarc1; s" ++ "p=none")
    /\ validate_dmarc record_content = true.
Proof.
  exists "v=DMARC1; sp=none".
  split; [reflexivity|]. split; [reflexivity|]. split; [|split; reflexivity].
  change (tags "v=DMARC1; sp=none") with ["v"; "sp"].
  rewrite !elem_of_cons, elem_of_nil. intuition discriminate.
Qed.

(** * Further properties *)

(** A stretch that spells 'p=' is 'p=' or 'P='. *)
Lemma occurs_p_equals (text : string) :
  occurs_ignoring_case "p=" text <-> substring "p=" text \/ substring "P=" text.
Proof.
  split.
  - intros (pre & w & post & -> & Hw).
    inversion Hw as [|c n w1 p1 Hc Hw1|]; subst.
    inversion Hw1 as [|c' n' w2 p2 Hc' Hw2|]; subst.
    inversion Hw2; subst.
    assert (c' = "="%char) as ->.
    { destruct Hc' as [-> | [Hc' H]]; [reflexivity|].
      change (nat_of_ascii "=") with 61 in H. lia. }
    destruct Hc as [-> | [Hc H]].
    + left. by exists pre, post.
    + right. exists pre, post.
      assert (c = "P"%char) as ->; [|reflexivity].
      rewrite <- (ascii_nat_embedding c). change (nat_of_ascii "p") with 112 in H.
      replace (nat_of_ascii c) with 80 by lia. reflexivity.
  - intros [(pre & post & ->) | (pre & post & ->)].
    + exists pre, "p=", post. split; [reflexivity|]. repeat constructor; by left.
    + exists pre, "P=", post. split; [reflexivity|].
      constructor; [|repeat constructor; by left]. right. change (nat_of_ascii "P") with 80. change (nat_of_ascii "p") with 112. lia.
Qed.

(** ** The other validators *)

(** X1. [validate_dmarc] holds exactly of the texts in which some stretch
    spells 'v=dmarc1' and some stretch spells 'p=none', 'p=quarantine' or
    'p=reject', each letter small or capital; these are the texts whose
    lower-case form contains 'v=dmarc1' and one of the three policies.  So
    'V=DMARC1; P=Reject' is accepted, and a record whose only policy is
    'p=monitor' is not. *)
Theorem validate_dmarc_iff_substrings (record_content : string) :
  (validate_dmarc record_content = true
   <-> occurs_ignoring_case "v=dmarc1" record_content
       /\ (occurs_ignoring_case "p=none" record_content
           \/ occurs_ignoring_case "p=quarantine" record_content
           \/ occurs_ignoring_case "p=reject" record_content))
  /\ (validate_dmarc record_content = true
      <-> substring "v=dmarc1" (lower record_content)
          /\ (substring "p=none" (lower record_content)
              \/ substring "p=quarantine" (lower record_content)
              \/ substring "p=reject" (lower record_content)))
  /\ lower "V=DMARC1; P=Reject" = "v=dmarc1; p=reject"
  /\ validate_dmarc "V=DMARC1; P=Reject" = true
  /\ validate_dmarc "v=DMARC1; P=QUARANTINE; pct=20" = true
  /\ validate_dmarc "v=DMARC1; p=monitor" = false
  /\ validate_dmarc "p=none" = false.
Proof.
  split; [|split].
  - unfold validate_dmarc. cbv zeta. cbn [existsb].
    rewrite andb_true_iff, !orb_true_iff, !contains_lower by reflexivity.
    intuition discriminate.
  - unfold validate_dmarc. cbv zeta. cbn [existsb].
    rewrite andb_true_iff, !orb_true_iff, !contains_spec. intuition discriminate.
  - repeat split; reflexivity.
Qed.

(** X2. [validate_dkim] holds exactly of the texts in which some stretch
    spells 'v=dkim1', each letter small or capital and the k also written as
    U+212A KELVIN SIGN, and in which 'p=' or 'P=' occurs; these are the
    texts whose lower-case form contains 'v=dkim1' and 'p='.  A record with
    an empty key (a revoked one) is accepted. *)
Theorem validate_dkim_iff_substrings (record_content : string) :
  (validate_dkim record_content = true
   <-> occurs_ignoring_case "v=dkim1" record_content
       /\ occurs_ignoring_case "p=" record_content)
  /\ (validate_dkim record_content = true
      <-> substring "v=dkim1" (lower record_content)
          /\ substring "p=" (lower record_content))
  /\ (occurs_ignoring_case "p=" record_content
      <-> substring "p=" record_content \/ substring "P=" record_content)
  /\ lower ("V=D" ++ kelvin_sign ++ "IM1; P=MIGf") = "v=dkim1; p=migf"
  /\ validate_dkim ("V=D" ++ kelvin_sign ++ "IM1; P=MIGf") = true
  /\ validate_dkim "v=DKIM1; k=rsa; p=" = true
  /\ validate_dkim "v=DKIM1; k=rsa" = false.
Proof.
  split; [|split; [|split]].
  - unfold validate_dkim. cbv zeta.
    by rewrite andb_true_iff, !contains_lower by reflexivity.
  - unfold validate_dkim. cbv zeta. by rewrite andb_true_iff, !contains_spec.
  - apply occurs_p_equals.
  - repeat split; reflexivity.
Qed.

(** ** The SPF and DMARC steps *)

(** X3. In an evaluation that returns, SPF is 'Pass' exactly when the TXT
    lookup at the domain yields a valid SPF record, and 'Fail' exactly when
    it yields none (the lookup failed with a DNS exception, or no record it
    gave validates); DMARC is set the same way from the lookup at
    [_dmarc.<domain>]. *)
Theorem spf_and_dmarc_from_their_lookups
    (net : network) (domain : string) (known_dkim_selectors : option (list string))
    (nameserver : option string) (timeout : float)
    (r : gmap string string) (st : state) :
  run (check_dns_records net domain known_dkim_selectors nameserver timeout) = (Ok r, st) ->
  let spf_answer := answer_TXT net (configured nameserver timeout) domain in
  let dmarc_answer := answer_TXT net (configured nameserver timeout) (dmarc_domain domain) in
  (r !! "SPF" = Some "Pass" <-> yields_valid validate_spf spf_answer)
  /\ (r !! "SPF" = Some "Fail" <-> yields_none validate_spf spf_answer)
  /\ (r !! "DMARC" = Some "Pass" <-> yields_valid validate_dmarc dmarc_answer)
  /\ (r !! "DMARC" = Some "Fail" <-> yields_none validate_dmarc dmarc_answer).
Proof.
  intros Hrun spf_answer dmarc_answer.
  apply check_dns_records_ok in Hrun
    as (spf & dmarc & dkim & takeover & tried & _ & Hspf & Hdmarc & _ & _ & -> & _).
  fold spf_answer in Hspf. fold dmarc_answer in Hdmarc.
  destruct (domain_result_fields domain (verdict spf) dkim (verdict dmarc)
              (if spf && dmarc then "No" else "Yes") takeover)
    as (_ & -> & _ & -> & _).
  rewrite <- !lookup_verdict_true, <- !lookup_verdict_false, Hspf, Hdmarc.
  destruct spf, dmarc; cbn; intuition congruence.
Qed.

Lemma spf_and_dmarc_from_their_lookups_witness :
  let r := domain_result "good.com" "Pass" "Pass" "Pass" "No" "No" in
  let st := snd (run (check_dns_records example_net "good.com"
                        (Some default_selectors) None 3)) in
  let spf_answer := example_TXT "good.com" in
  let dmarc_answer := example_TXT (dmarc_domain "good.com") in
  run (check_dns_records example_net "good.com" (Some default_selectors) None 3)
  = (Ok r, st)
  /\ (r !! "SPF" = Some "Pass" <-> yields_valid validate_spf spf_answer)
  /\ (r !! "SPF" = Some "Fail" <-> yields_none validate_spf spf_answer)
  /\ (r !! "DMARC" = Some "Pass" <-> yields_valid validate_dmarc dmarc_answer)
  /\ (r !! "DMARC" = Some "Fail" <-> yields_none validate_dmarc dmarc_answer).
Proof.
  assert (Hrun : run (check_dns_records example_net "good.com"
                        (Some default_selectors) None 3)
                 = (Ok (domain_result "good.com" "Pass" "Pass" "Pass" "No" "No"),
                    snd (run (check_dns_records example_net "good.com"
                                (Some default_selectors) None 3))))
    by reflexivity.
  split; [exact Hrun|].
  exact (spf_and_dmarc_from_their_lookups example_net "good.com"
           (Some default_selectors) None 3 _ _ Hrun).
Defined.

(** ** When an evaluation returns and when it does not *)

Lemma run_of_evaluation
    (net : network) (domain : string) (known_dkim_selectors : option (list string))
    (nameserver : option string) (timeout : float)
    (out : res (gmap string string)) (log : list query) :
  evaluation net domain known_dkim_selectors nameserver timeout = (out, log) ->
  exists st,
    run (check_dns_records net domain known_dkim_selectors nameserver timeout) = (out, st)
    /\ queries st = log.
Proof.
  rewrite <- check_dns_records_run. unfold observe.
  destruct (run _) as [out' st]. cbn [fst snd]. intros [= -> <-]. by exists st.
Qed.

Lemma worker_of_run
    (net : network) (domain : string) (known_dkim_selectors : option (list string))
    (nameserver : option string) (timeout : float)
    (out : res (gmap string string)) (st : state) :
  run (check_dns_records net domain known_dkim_selectors nameserver timeout) = (out, st) ->
  worker net domain known_dkim_selectors nameserver timeout =
  match out with
  | Ok r => (Ok r, [])
  | Raise e => (Ok (error_results domain), [ERROR domain e])
  end.
Proof. unfold worker. by intros ->. Qed.

Lemma decode_all_decodable (parts : list (list byte)) :
  Forall (fun part => utf8_valid (map Byte.to_N part) = true) parts ->
  decode_all parts = Ok (map string_of_list_byte parts).
Proof.
  induction 1 as [|part parts Hpart _ IH]; cbn [decode_all map]; [done|].
  unfold decode. by rewrite Hpart, IH.
Qed.

Lemma decode_all_ok (parts : list (list byte)) (texts : list string) :
  decode_all parts = Ok texts ->
  Forall (fun part => utf8_valid (map Byte.to_N part) = true) parts.
Proof.
  revert texts. induction parts as [|part parts IH]; intros texts; cbn [decode_all];
    [by constructor|].
  unfold decode. destruct (utf8_valid (map Byte.to_N part)) eqn:Hpart; [|done].
  destruct (decode_all parts) as [texts'|] eqn:Hparts; [|done].
  intros _. constructor; [done | by eapply IH].
Qed.

Lemma combined_decodable (rd : rdata) :
  decodable rd -> combined rd = Ok (join (map string_of_list_byte (strings rd))).
Proof. intros H. unfold combined. by rewrite (decode_all_decodable _ H). Qed.

Lemma combined_undecodable (rd : rdata) :
  ~ decodable rd -> combined rd = Raise UnicodeDecodeError.
Proof.
  intros H. unfold combined. destruct (decode_all (strings rd)) as [texts|e] eqn:Hrd.
  - destruct H. by eapply decode_all_ok.
  - by apply decode_all_raise in Hrd as ->.
Qed.

Lemma first_valid_decodable (validate : string -> bool) (answers : list rdata) :
  Forall decodable answers -> exists found, first_valid validate answers = Ok found.
Proof.
  induction 1 as [|rd answers Hrd _ IH]; cbn [first_valid]; [by exists false|].
  rewrite (combined_decodable _ Hrd). destruct (validate _); [by exists true | exact IH].
Qed.

Lemma first_valid_skip (validate : string -> bool) (before rest : list rdata) :
  Forall (invalid_record validate) before ->
  first_valid validate (before ++ rest) = first_valid validate rest.
Proof.
  induction 1 as [|rd before (text & Hrd & Hv) _ IH]; cbn [app first_valid]; [done|].
  by rewrite Hrd, Hv.
Qed.

Lemma is_DNSException_lookup_failure (e : exn) :
  is_DNSException e = true -> lookup_failure e = true.
Proof. unfold lookup_failure. intros ->. by rewrite orb_true_r. Qed.

Lemma sweep_returns (probe : string -> res bool) (selectors : list string) :
  (forall s, exists found, probe s = Ok found) ->
  exists found tried, sweep probe selectors = (Ok found, tried).
Proof.
  intros Hprobe. induction selectors as [|s rest (found & tried & IH)]; cbn [sweep].
  - by exists false, [].
  - destruct (Hprobe s) as [[|] ->]; [by exists true, [s]|].
    rewrite IH. by exists found, (s :: tried).
Qed.

Lemma sweep_tried_length (probe : string -> res bool) (selectors : list string) :
  length (snd (sweep probe selectors)) <= length selectors.
Proof.
  induction selectors as [|s rest IH]; cbn [sweep]; [done|].
  destruct (probe s) as [[|]|e]; cbn [snd length]; [lia| |lia].
  destruct (sweep probe rest) as [r tried]. cbn [snd length] in *. lia.
Qed.

(** X4. When the system has a resolver configuration, the name server (if
    one is given) is a text the resolver accepts, lookups fail only with DNS
    exceptions and the TXT records are well-formed UTF-8, the evaluation
    returns for every domain and every selector list: the worker hands over
    the evaluator's own dictionary, never the all-Error one, and prints no
    error line. *)
Theorem benign_network_never_fatal
    (net : network) (domain : string) (known_dkim_selectors : option (list string))
    (nameserver : option string) (timeout : float) :
  benign net nameserver timeout ->
  exists r st,
    run (check_dns_records net domain known_dkim_selectors nameserver timeout) = (Ok r, st)
    /\ worker net domain known_dkim_selectors nameserver timeout = (Ok r, [])
    /\ r <> error_results domain.
Proof.
  intros (Hconf & Hok & Htxt & Ha).
  assert (Hset : refused net (configured nameserver timeout) = false)
    by (by rewrite refused_nameserver_ok, Hok).
  assert (Htxt' : forall qname,
             match answer_TXT net (configured nameserver timeout) qname with
             | Ok answers => Forall decodable answers
             | Raise e => is_DNSException e = true
             end)
    by (intros qname; rewrite (answer_TXT_set_up _ _ _ Hset); apply Htxt).
  assert (Ha' : forall qname,
             match answer_A net (configured nameserver timeout) qname with
             | Ok _ => True
             | Raise e => is_DNSException e = true
             end)
    by (intros qname; rewrite (answer_A_set_up _ _ _ Hset); apply Ha).
  clear Htxt Ha. rename Htxt' into Htxt. rename Ha' into Ha.
  assert (Hlookup : forall validate qname,
             exists found,
               lookup_verdict validate
                 (answer_TXT net (configured nameserver timeout) qname) = Ok found).
  { intros validate qname. specialize (Htxt qname).
    destruct (answer_TXT net (configured nameserver timeout) qname) as [answers|e];
      cbn [lookup_verdict].
    - by apply first_valid_decodable.
    - rewrite (is_DNSException_lookup_failure _ Htxt). by exists false. }
  destruct (Hlookup validate_spf domain) as [spf Hspf].
  destruct (Hlookup validate_dmarc (dmarc_domain domain)) as [dmarc Hdmarc].
  assert (Hdkim : exists dkim tried,
             dkim_outcome net (configured nameserver timeout) domain known_dkim_selectors
             = (Ok dkim, tried)).
  { unfold dkim_outcome. destruct (falsy_list known_dkim_selectors); [by eexists _, _|].
    destruct (sweep_returns (dkim_probe net (configured nameserver timeout) domain)
                (selectors_of known_dkim_selectors)) as (found & tried & ->).
    - intros s. apply Hlookup.
    - by eexists _, _. }
  destruct Hdkim as (dkim & tried & Hdkim).
  assert (Htakeover : exists takeover,
             takeover_verdict (answer_A net (configured nameserver timeout) domain)
             = Ok takeover).
  { specialize (Ha domain). unfold takeover_verdict.
    destruct (answer_A net (configured nameserver timeout) domain) as [|e]; [by eexists|].
    destruct (is_NXDOMAIN e); [by eexists|].
    unfold no_answer_or_dns. rewrite Ha, orb_true_r. by eexists. }
  destruct Htakeover as [takeover Htakeover].
  destruct (run_of_evaluation net domain known_dkim_selectors nameserver timeout
              (Ok (domain_result domain (verdict spf) dkim (verdict dmarc)
                     (if spf && dmarc then "No" else "Yes") takeover))
              ([(domain, TXT); (dmarc_domain domain, TXT)]
               ++ map (dkim_query domain) tried ++ [(domain, A)])%list)
    as (st & Hrun & _).
  { unfold evaluation. rewrite Hconf, Hset, Hspf, Hdmarc, Hdkim, Htakeover.
    by rewrite <- app_assoc. }
  eexists _, st. split; [exact Hrun|]. split; [by rewrite (worker_of_run _ _ _ _ _ _ _ Hrun)|].
  intros H. apply (f_equal (fun m => m !! "SPF")) in H.
  destruct (domain_result_fields domain (verdict spf) dkim (verdict dmarc)
              (if spf && dmarc then "No" else "Yes") takeover) as (_ & Hf & _).
  rewrite Hf in H. by destruct spf.
Qed.

Lemma tidy_net_benign (nameserver : option string) (timeout : float) :
  nameserver_ok tidy_net nameserver = true -> benign tidy_net nameserver timeout.
Proof.
  intros Hok. split; [reflexivity|]. split; [exact Hok|]. split.
  - intros qname. cbn [lookup_TXT tidy_net]. unfold tidy_TXT.
    destruct (String.eqb qname "good.com"); [repeat constructor|].
    destruct (String.eqb qname "_dmarc.good.com"); [repeat constructor | reflexivity].
  - intros qname. cbn [lookup_A tidy_net]. unfold example_A.
    repeat (destruct (String.eqb qname _); [done|]). done.
Qed.

Lemma benign_network_never_fatal_witness :
  benign tidy_net (Some "192.0.2.53") 3
  /\ exists r st,
      run (check_dns_records tidy_net "good.com" (Some default_selectors)
             (Some "192.0.2.53") 3)
      = (Ok r, st)
      /\ worker tidy_net "good.com" (Some default_selectors) (Some "192.0.2.53") 3
         = (Ok r, [])
      /\ r <> error_results "good.com".
Proof.
  split; [exact (tidy_net_benign (Some "192.0.2.53") 3 eq_refl)|].
  exact (benign_network_never_fatal tidy_net "good.com" (Some default_selectors)
           (Some "192.0.2.53") 3
           (tidy_net_benign (Some "192.0.2.53") 3 eq_refl)).
Defined.

(** X5. When the TXT answer at the domain holds a record with a segment that
    is not UTF-8 and no valid SPF record before it, the evaluation stops
    there: the lookup at the domain is the only query sent, the worker hands
    over the all-Error dictionary and prints the decoding error. *)
Theorem undecodable_apex_record_is_fatal
    (net : network) (domain : string) (known_dkim_selectors : option (list string))
    (nameserver : option string) (timeout : float)
    (before : list rdata) (rd : rdata) (after : list rdata) :
  resolver_configuration net = Ok tt ->
  answer_TXT net (configured nameserver timeout) domain = Ok (before ++ rd :: after)%list ->
  Forall (invalid_record validate_spf) before ->
  ~ decodable rd ->
  worker net domain known_dkim_selectors nameserver timeout
  = (Ok (error_results domain), [ERROR domain UnicodeDecodeError])
  /\ queries (snd (run (check_dns_records net domain known_dkim_selectors
                                          nameserver timeout)))
     = [(domain, TXT)].
Proof.
  intros Hconf Hanswer Hbefore Hrd.
  destruct (run_of_evaluation net domain known_dkim_selectors nameserver timeout
              (Raise UnicodeDecodeError) [(domain, TXT)]) as (st & Hrun & Hlog).
  { unfold evaluation.
    rewrite Hconf, (answer_TXT_Ok _ _ _ _ Hanswer), Hanswer. cbn [lookup_verdict].
    rewrite (first_valid_skip _ _ _ Hbefore). cbn [first_valid].
    by rewrite (combined_undecodable _ Hrd). }
  rewrite (worker_of_run _ _ _ _ _ _ _ Hrun), Hrun. by split.
Qed.

Lemma undecodable_apex_record_is_fatal_witness :
  resolver_configuration example_net = Ok tt
  /\ example_TXT "garbled.example" = Ok ([] ++ Rdata [[xff]] :: [])%list
  /\ Forall (invalid_record validate_spf) []
  /\ ~ decodable (Rdata [[xff]])
  /\ worker example_net "garbled.example" (Some default_selectors) None 3
     = (Ok (error_results "garbled.example"), [ERROR "garbled.example" UnicodeDecodeError])
  /\ queries (snd (run (check_dns_records example_net "garbled.example"
                                          (Some default_selectors) None 3)))
     = [("garbled.example", TXT)].
Proof.
  assert (Hconf : resolver_configuration example_net = Ok tt) by reflexivity.
  assert (Hanswer : answer_TXT example_net (configured None 3) "garbled.example"
                    = Ok ([] ++ Rdata [[xff]] :: [])%list) by reflexivity.
  assert (Hbefore : Forall (invalid_record validate_spf) []) by constructor.
  assert (Hrd : ~ decodable (Rdata [[xff]])).
  { intros H. inversion H as [|? ? Hpart]. discriminate Hpart. }
  split; [exact Hconf|]. split; [exact Hanswer|]. split; [exact Hbefore|].
  split; [exact Hrd|].
  exact (undecodable_apex_record_is_fatal example_net "garbled.example"
           (Some default_selectors) None 3 [] (Rdata [[xff]]) [] Hconf Hanswer Hbefore Hrd).
Defined.

(** X6. An evaluation sends at most three queries plus one per configured
    selector, however it ends, and at least three when it returns. *)
Theorem query_count_bounded
    (net : network) (domain : string) (known_dkim_selectors : option (list string))
    (nameserver : option string) (timeout : float) :
  let out := run (check_dns_records net domain known_dkim_selectors nameserver timeout) in
  length (queries (snd out)) <= 3 + length (selectors_of known_dkim_selectors)
  /\ (forall r, fst out = Ok r -> 3 <= length (queries (snd out))).
Proof.
  intros out.
  pose proof (check_dns_records_run net domain known_dkim_selectors nameserver timeout)
    as H.
  unfold observe in H. fold out in H. destruct out as [o st]. cbn [fst snd] in *.
  assert (Htried : length (snd (dkim_outcome net (configured nameserver timeout) domain
                                   known_dkim_selectors))
                   <= length (selectors_of known_dkim_selectors)).
  { unfold dkim_outcome. destruct (falsy_list known_dkim_selectors); cbn; [lia|].
    pose proof (sweep_tried_length (dkim_probe net (configured nameserver timeout) domain)
                  (selectors_of known_dkim_selectors)) as Hs.
    by destruct (sweep _ _). }
  revert H Htried. unfold evaluation.
  destruct (resolver_configuration net); [|intros [= -> ->] _; split; [cbn; lia | done]].
  destruct (refused net _); [intros [= -> ->] _; split; [cbn; lia | done]|].
  destruct (lookup_verdict validate_spf _);
    [|intros [= -> ->] _; split; [cbn; lia | done]].
  destruct (lookup_verdict validate_dmarc _);
    [|intros [= -> ->] _; split; [cbn; lia | done]].
  destruct (dkim_outcome _ _ _ _) as [[dkim|] tried]; cbn [snd].
  - destruct (takeover_verdict _); intros [= -> ->] Htried;
      cbn [app length]; rewrite ?length_app, ?length_map; cbn [length];
      (split; [lia | intros; lia]).
  - intros [= -> ->] Htried. cbn [app length]. rewrite ?length_app, ?length_map.
    split; [lia | done].
Qed.

(** ** The selector list *)

Lemma domain_result_other_field (domain spf dkim dkim' dmarc vulnerable takeover key : string) :
  key <> "DKIM" ->
  domain_result domain spf dkim dmarc vulnerable takeover !! key
  = domain_result domain spf dkim' dmarc vulnerable takeover !! key.
Proof.
  intros Hkey. unfold domain_result. rewrite !lookup_insert.
  repeat case_decide; congruence.
Qed.

Lemma sweep_app_found (probe : string -> res bool) (selectors more tried : list string) :
  sweep probe selectors = (Ok true, tried) ->
  sweep probe (selectors ++ more) = (Ok true, tried).
Proof.
  revert tried. induction selectors as [|s rest IH]; intros tried; cbn [sweep app]; [done|].
  destruct (probe s) as [[|]|e]; [done| |done].
  destruct (sweep probe rest) as [r tried'] eqn:Hrest. intros [= -> <-].
  by rewrite (IH tried' eq_refl).
Qed.

(** X7. The selector list bears on the DKIM field only: two evaluations of
    one domain that both return, whatever their selector lists, agree on
    every other field. *)
Theorem selectors_change_only_dkim
    (net : network) (domain : string) (selectors1 selectors2 : option (list string))
    (nameserver : option string) (timeout : float)
    (r1 r2 : gmap string string) (st1 st2 : state) (key : string) :
  run (check_dns_records net domain selectors1 nameserver timeout) = (Ok r1, st1) ->
  run (check_dns_records net domain selectors2 nameserver timeout) = (Ok r2, st2) ->
  key <> "DKIM" ->
  r1 !! key = r2 !! key.
Proof.
  intros Hrun1 Hrun2 Hkey.
  apply check_dns_records_ok in Hrun1
    as (spf & dmarc & dkim1 & takeover & tried1 & _ & Hspf & Hdmarc & _ & Htk & -> & _).
  apply check_dns_records_ok in Hrun2
    as (spf' & dmarc' & dkim2 & takeover' & tried2 & _ & Hspf' & Hdmarc' & _ & Htk' & -> & _).
  rewrite Hspf in Hspf'. rewrite Hdmarc in Hdmarc'. rewrite Htk in Htk'.
  injection Hspf' as <-. injection Hdmarc' as <-. injection Htk' as <-.
  by apply domain_result_other_field.
Qed.

Lemma selectors_change_only_dkim_witness :
  let st1 := snd (run (check_dns_records example_net "good.com"
                         (Some default_selectors) None 3)) in
  let st2 := snd (run (check_dns_records example_net "good.com" (Some []) None 3)) in
  let r1 := domain_result "good.com" "Pass" "Pass" "Pass" "No" "No" in
  let r2 := domain_result "good.com" "Pass" "Unknown" "Pass" "No" "No" in
  run (check_dns_records example_net "good.com" (Some default_selectors) None 3)
  = (Ok r1, st1)
  /\ run (check_dns_records example_net "good.com" (Some []) None 3) = (Ok r2, st2)
  /\ "SPF" <> "DKIM"
  /\ r1 !! "SPF" = r2 !! "SPF".
Proof.
  assert (H1 : run (check_dns_records example_net "good.com"
                      (Some default_selectors) None 3)
               = (Ok (domain_result "good.com" "Pass" "Pass" "Pass" "No" "No"),
                  snd (run (check_dns_records example_net "good.com"
                              (Some default_selectors) None 3))))
    by reflexivity.
  assert (H2 : run (check_dns_records example_net "good.com" (Some []) None 3)
               = (Ok (domain_result "good.com" "Pass" "Unknown" "Pass" "No" "No"),
                  snd (run (check_dns_records example_net "good.com" (Some []) None 3))))
    by reflexivity.
  assert (Hkey : "SPF" <> "DKIM") by discriminate.
  split; [exact H1|]. split; [exact H2|]. split; [exact Hkey|].
  exact (selectors_change_only_dkim example_net "good.com" _ _ None 3 _ _ _ _ "SPF"
           H1 H2 Hkey).
Defined.

(** X8. The order of the selectors does not change the result: two
    evaluations of one domain with the same selectors in different orders,
    when both return, return the same dictionary. *)
Theorem selector_order_keeps_result
    (net : network) (domain : string) (selectors1 selectors2 : list string)
    (nameserver : option string) (timeout : float)
    (r1 r2 : gmap string string) (st1 st2 : state) :
  selectors1 ≡ₚ selectors2 ->
  run (check_dns_records net domain (Some selectors1) nameserver timeout) = (Ok r1, st1) ->
  run (check_dns_records net domain (Some selectors2) nameserver timeout) = (Ok r2, st2) ->
  r1 = r2.
Proof.
  intros Hperm Hrun1 Hrun2.
  apply check_dns_records_ok in Hrun1
    as (spf & dmarc & dkim1 & takeover & tried1 & _ & Hspf & Hdmarc & Hdkim1 & Htk & -> & _).
  apply check_dns_records_ok in Hrun2
    as (spf' & dmarc' & dkim2 & takeover' & tried2 & _ & Hspf' & Hdmarc' & Hdkim2 & Htk' & -> & _).
  rewrite Hspf in Hspf'. rewrite Hdmarc in Hdmarc'. rewrite Htk in Htk'.
  injection Hspf' as <-. injection Hdmarc' as <-. injection Htk' as <-.
  f_equal.
  apply dkim_outcome_cases in Hdkim1 as [(Hf1 & -> & _) | (Hf1 & found1 & Hs1 & ->)];
    apply dkim_outcome_cases in Hdkim2 as [(Hf2 & -> & _) | (Hf2 & found2 & Hs2 & ->)].
  - reflexivity.
  - destruct selectors1; [|discriminate Hf1].
    apply Permutation_nil_l in Hperm as <-. discriminate Hf2.
  - destruct selectors2; [|discriminate Hf2].
    apply Permutation_nil_r in Hperm as ->. discriminate Hf1.
  - cbn [selectors_of] in Hs1, Hs2. destruct found1, found2; try reflexivity; exfalso.
    + apply sweep_found in Hs1 as (before & s & after & -> & _ & _ & Hs).
      apply sweep_not_found in Hs2 as [_ Hall].
      rewrite <- Hperm in Hall. apply Forall_app in Hall as [_ Hall].
      inversion_clear Hall as [|? ? Hs']. congruence.
    + apply sweep_found in Hs2 as (before & s & after & -> & _ & _ & Hs).
      apply sweep_not_found in Hs1 as [_ Hall].
      rewrite Hperm in Hall. apply Forall_app in Hall as [_ Hall].
      inversion_clear Hall as [|? ? Hs']. congruence.
Qed.

Lemma selector_order_keeps_result_witness :
  let sels1 := default_selectors in
  let sels2 := rev default_selectors in
  let st1 := snd (run (check_dns_records example_net "good.com" (Some sels1) None 3)) in
  let st2 := snd (run (check_dns_records example_net "good.com" (Some sels2) None 3)) in
  let r := domain_result "good.com" "Pass" "Pass" "Pass" "No" "No" in
  sels1 ≡ₚ sels2
  /\ run (check_dns_records example_net "good.com" (Some sels1) None 3) = (Ok r, st1)
  /\ run (check_dns_records example_net "good.com" (Some sels2) None 3) = (Ok r, st2)
  /\ r = r.
Proof.
  assert (Hperm : default_selectors ≡ₚ rev default_selectors) by apply Permutation_rev.
  assert (H1 : run (check_dns_records example_net "good.com"
                      (Some default_selectors) None 3)
               = (Ok (domain_result "good.com" "Pass" "Pass" "Pass" "No" "No"),
                  snd (run (check_dns_records example_net "good.com"
                              (Some default_selectors) None 3))))
    by reflexivity.
  assert (H2 : run (check_dns_records example_net "good.com"
                      (Some (rev default_selectors)) None 3)
               = (Ok (domain_result "good.com" "Pass" "Pass" "Pass" "No" "No"),
                  snd (run (check_dns_records example_net "good.com"
                              (Some (rev default_selectors)) None 3))))
    by reflexivity.
  split; [exact Hperm|]. split; [exact H1|]. split; [exact H2|].
  exact (selector_order_keeps_result example_net "good.com" _ _ None 3 _ _ _ _
           Hperm H1 H2).
Defined.

(** X9. Once DKIM is 'Pass', selectors added at the end of the list change
    nothing: the evaluation returns the same dictionary and sends the same
    queries. *)
Theorem selectors_after_a_pass_are_idle
    (net : network) (domain : string) (selectors more : list string)
    (nameserver : option string) (timeout : float)
    (r : gmap string string) (st : state) :
  run (check_dns_records net domain (Some selectors) nameserver timeout) = (Ok r, st) ->
  r !! "DKIM" = Some "Pass" ->
  exists st',
    run (check_dns_records net domain (Some (selectors ++ more)%list) nameserver timeout)
    = (Ok r, st')
    /\ queries st' = queries st.
Proof.
  intros Hrun Hpass.
  pose proof (check_dns_records_run net domain (Some selectors) nameserver timeout) as H.
  rewrite Hrun in H. unfold observe in H. cbn [fst snd] in H.
  apply check_dns_records_ok in Hrun
    as (spf & dmarc & dkim & takeover & tried & _ & _ & _ & Hdkim & _ & -> & _).
  destruct (domain_result_fields domain (verdict spf) dkim (verdict dmarc)
              (if spf && dmarc then "No" else "Yes") takeover) as (_ & _ & Hf & _).
  rewrite Hf in Hpass. injection Hpass as ->.
  apply dkim_outcome_cases in Hdkim as [(_ & [=] & _) | (Hf' & found & Hsweep & Hfound)].
  destruct found; [|discriminate Hfound]. cbn [selectors_of] in Hsweep.
  apply run_of_evaluation. rewrite H. unfold evaluation, dkim_outcome.
  destruct selectors as [|s rest]; [discriminate Hf'|].
  cbn [app falsy_list selectors_of]. rewrite Hsweep.
  change (s :: (rest ++ more)%list) with ((s :: rest) ++ more)%list.
  by rewrite (sweep_app_found _ _ more _ Hsweep).
Qed.

Lemma selectors_after_a_pass_are_idle_witness :
  let r := domain_result "good.com" "Pass" "Pass" "Pass" "No" "No" in
  let st := snd (run (check_dns_records example_net "good.com"
                        (Some ["selector1"; "selector2"]) None 3)) in
  run (check_dns_records example_net "good.com" (Some ["selector1"; "selector2"]) None 3)
  = (Ok r, st)
  /\ r !! "DKIM" = Some "Pass"
  /\ exists st',
      run (check_dns_records example_net "good.com"
             (Some (["selector1"; "selector2"] ++ ["mail"; "default"])%list) None 3)
      = (Ok r, st')
      /\ queries st' = queries st.
Proof.
  assert (Hrun : run (check_dns_records example_net "good.com"
                        (Some ["selector1"; "selector2"]) None 3)
                 = (Ok (domain_result "good.com" "Pass" "Pass" "Pass" "No" "No"),
                    snd (run (check_dns_records example_net "good.com"
                                (Some ["selector1"; "selector2"]) None 3))))
    by reflexivity.
  assert (Hpass : domain_result "good.com" "Pass" "Pass" "Pass" "No" "No" !! "DKIM"
                  = Some "Pass") by reflexivity.
  split; [exact Hrun|]. split; [exact Hpass|].
  exact (selectors_after_a_pass_are_idle example_net "good.com"
           ["selector1"; "selector2"] ["mail"; "default"] None 3 _ _ Hrun Hpass).
Defined.

(** ** The loop of [main] on any futures *)

Lemma collect_any (total_count : nat) (order : list (future * string)) (c : collector) :
  fold_left (collect_one total_count) order c =
  Collector
    (results_list c ++
     omap (fun entry : future * string =>
             match fut_result (fst entry) with
             | Ok result => Some result
             | Raise _ => None
             end) order)
    (completed_count c + length order)
    (console c ++
     imap (fun i (entry : future * string) =>
             match fut_result (fst entry) with
             | Ok _ =>
                 INFO (snd entry) (completed_count c + S i) total_count
                      (format_2f (percentage (completed_count c + S i) total_count))
             | Raise e => ERROR (snd entry) e
             end) order).
Proof.
  revert c. induction order as [|entry order IH]; intros c; cbn [fold_left].
  - cbn. rewrite !app_nil_r, Nat.add_0_r. by destruct c.
  - rewrite IH, imap_cons. cbn [omap list_omap length]. unfold collect_one.
    destruct (fut_result (fst entry)) as [result|e];
      cbn [results_list completed_count console];
      rewrite <- ?app_assoc; cbn [app]; f_equal; try lia;
      rewrite ?Nat.add_1_r; do 2 f_equal; apply imap_ext; intros i x _; cbn;
      by rewrite <- Nat.add_succ_r.
Qed.

Lemma progress_of_returned (total_count k : nat) (order : list (future * string)) :
  length (progress
            (imap (fun i (entry : future * string) =>
                     match fut_result (fst entry) with
                     | Ok _ => INFO (snd entry) (k + S i) total_count
                                    (format_2f (percentage (k + S i) total_count))
                     | Raise e => ERROR (snd entry) e
                     end) order))
  = count (fun entry : future * string =>
             match fut_result (fst entry) with Ok _ => true | Raise _ => false end)
          order.
Proof.
  unfold count. revert k. induction order as [|entry order IH]; intros k; [reflexivity|].
  rewrite imap_cons. cbn [List.filter].
  assert (Hrest : forall l : list (future * string),
             imap ((fun i (entry0 : future * string) =>
                      match fut_result (fst entry0) with
                      | Ok _ => INFO (snd entry0) (k + S i) total_count
                                     (format_2f (percentage (k + S i) total_count))
                      | Raise e => ERROR (snd entry0) e
                      end) ∘ S) l
             = imap (fun i (entry0 : future * string) =>
                       match fut_result (fst entry0) with
                       | Ok _ => INFO (snd entry0) (S k + S i) total_count
                                      (format_2f (percentage (S k + S i) total_count))
                       | Raise e => ERROR (snd entry0) e
                       end) l).
  { intros l. apply imap_ext. intros i x _. cbn. by rewrite <- Nat.add_succ_r. }
  rewrite Hrest. destruct (fut_result (fst entry)).
  - rewrite progress_INFO. cbn [length]. f_equal. apply IH.
  - unfold progress at 1. cbn [omap list_omap]. apply IH.
Qed.

(** X10. The loop of [main], for any futures: every completion is counted; a
    future that returned adds its result and a progress line carrying the
    count reached; a future that raised adds no result and no progress line,
    only an error line.  So the results and the progress lines are as many as
    the futures that returned. *)
Theorem collect_keeps_returned_futures
    (total_count : nat) (order : list (future * string)) :
  let c := collect total_count order in
  let returned (entry : future * string) :=
    match fut_result (fst entry) with Ok _ => true | Raise _ => false end in
  completed_count c = length order
  /\ results_list c
     = omap (fun entry : future * string =>
               match fut_result (fst entry) with
               | Ok result => Some result
               | Raise _ => None
               end) order
  /\ console c
     = imap (fun i (entry : future * string) =>
               match fut_result (fst entry) with
               | Ok _ => INFO (snd entry) (S i) total_count
                              (format_2f (percentage (S i) total_count))
               | Raise e => ERROR (snd entry) e
               end) order
  /\ length (results_list c) = count returned order
  /\ length (progress (console c)) = count returned order.
Proof.
  intros c returned. unfold c, collect. rewrite collect_any.
  cbn [results_list completed_count console app Nat.add].
  split; [reflexivity|]. split; [reflexivity|]. split; [reflexivity|].
  split.
  - unfold count. induction order as [|entry order IH]; [reflexivity|].
    cbn [omap list_omap List.filter]. unfold returned at 1.
    destruct (fut_result (fst entry)); cbn [length]; by rewrite IH.
  - apply (progress_of_returned total_count 0 order).
Qed.

Example example_mixed_futures :
  let c := collect 3 mixed_futures in
  results_list c = [error_results "a.example"; error_results "c.example"]
  /\ completed_count c = 3
  /\ console c = [INFO "a.example" 1 3 "33.33"; ERROR "b.example" Exception;
                  INFO "c.example" 3 3 "100.00"].
Proof. repeat split; reflexivity. Qed.

(** ** The summary of the report *)

Lemma count_cons {T} (test : T -> bool) (x : T) (l : list T) :
  count test (x :: l) = (if test x then 1 else 0) + count test l.
Proof. unfold count. cbn [List.filter]. by destruct (test x). Qed.

Lemma count_Permutation {T} (test : T -> bool) (l1 l2 : list T) :
  l1 ≡ₚ l2 -> count test l1 = count test l2.
Proof.
  induction 1 as [|x l1 l2 _ IH|x y l|l1 l2 l3 _ IH1 _ IH2];
    rewrite ?count_cons; [done | lia | lia | congruence].
Qed.

Lemma existsb_Permutation {T} (test : T -> bool) (l1 l2 : list T) :
  l1 ≡ₚ l2 -> existsb test l1 = existsb test l2.
Proof.
  induction 1 as [|x l1 l2 _ IH|x y l|l1 l2 l3 _ IH1 _ IH2]; cbn [existsb];
    [done | by rewrite IH | | congruence].
  by destruct (test x), (test y).
Qed.

Lemma count_equal_Permutation (column value : string) (df1 df2 : list (gmap string string)) :
  df1 ≡ₚ df2 -> count_equal column value df1 = count_equal column value df2.
Proof.
  intros H. unfold count_equal. rewrite (existsb_Permutation _ _ _ H).
  fold (count (fun r : gmap string string => bool_decide (r !! column = Some value)) df1).
  fold (count (fun r : gmap string string => bool_decide (r !! column = Some value)) df2).
  by rewrite (count_Permutation _ _ _ H).
Qed.

Lemma analytics_Permutation (df1 df2 : list (gmap string string)) (start_time end_time : float) :
  df1 ≡ₚ df2 -> analytics df1 start_time end_time = analytics df2 start_time end_time.
Proof.
  intros H. unfold analytics.
  by rewrite (count_equal_Permutation _ _ _ _ H), (count_equal_Permutation _ _ _ _ H),
       (Permutation_length H).
Qed.

Section Report.

Variable net : network.
Variable known_dkim_selectors : option (list string).
Variable nameserver : option string.
Variable timeout : float.

Let report := reported net known_dkim_selectors nameserver timeout.

Lemma scan_results (domains : list string) (order : list (future * string)) :
  order ≡ₚ future_to_domain net known_dkim_selectors nameserver timeout domains ->
  results_list (collect (length domains) order) ≡ₚ map report domains.
Proof.
  intros Hperm.
  assert (Hall : Forall (fun entry => fut_result (fst entry) = Ok (report (snd entry)))
                        order).
  { rewrite Hperm. apply future_to_domain_results. }
  unfold collect. rewrite (collect_run _ _ _ _ Hall). cbn [results_list app].
  rewrite <- (map_map snd report). apply Permutation_map.
  rewrite <- (future_to_domain_domains net known_dkim_selectors nameserver timeout domains).
  by apply Permutation_map.
Qed.

Lemma reported_field (domain column : string) :
  column ∈ ["Vulnerable to Spoofing"; "Potential Subdomain Takeover"] ->
  is_Some (report domain !! column).
Proof.
  intros Hcolumn. unfold report.
  destruct (reported_cases net known_dkim_selectors nameserver timeout domain)
    as [-> | (spf & dmarc & dkim & takeover & -> & _)];
    rewrite !elem_of_cons, elem_of_nil in Hcolumn;
    destruct Hcolumn as [-> | [-> | []]]; by eexists.
Qed.

Lemma count_equal_reported (column value : string) (domains : list string) :
  column ∈ ["Vulnerable to Spoofing"; "Potential Subdomain Takeover"] ->
  domains <> [] ->
  count_equal column value (map report domains)
  = Ok (count (fun d => bool_decide (report d !! column = Some value)) domains).
Proof.
  intros Hcolumn Hne. unfold count_equal.
  assert (Hsome : existsb (fun r : gmap string string =>
                             bool_decide (is_Some (r !! column))) (map report domains)
                  = true).
  { destruct domains as [|d domains]; [done|]. cbn [map existsb].
    by rewrite (bool_decide_eq_true_2 _ (reported_field d column Hcolumn)). }
  rewrite Hsome. f_equal. unfold count. clear.
  induction domains as [|x l IH]; [reflexivity|]. cbn [map List.filter].
  destruct (bool_decide _); cbn [length]; by rewrite IH.
Qed.

Lemma analytics_reported (domains : list string) (start_time end_time : float) :
  domains <> [] ->
  analytics (map report domains) start_time end_time
  = Ok (Summary (length domains)
          (count (fun d => bool_decide (report d !! "Vulnerable to Spoofing" = Some "Yes"))
                 domains)
          (count (fun d => bool_decide (report d !! "Potential Subdomain Takeover" = Some "Yes"))
                 domains)
          (end_time - start_time)%float).
Proof.
  intros Hne. unfold analytics.
  rewrite !count_equal_reported by (done || set_solver). by rewrite length_map.
Qed.

(** Every domain is in exactly one class: vulnerable, not vulnerable, or its
    evaluation raised; and a domain whose evaluation raised is not counted as
    a takeover. *)
Lemma reported_class (domain : string) :
  let yes := bool_decide (report domain !! "Vulnerable to Spoofing" = Some "Yes") in
  let no := bool_decide (report domain !! "Vulnerable to Spoofing" = Some "No") in
  let error := raises net known_dkim_selectors nameserver timeout domain in
  let takeover := bool_decide (report domain !! "Potential Subdomain Takeover" = Some "Yes") in
  (if yes then 1 else 0) + (if no then 1 else 0) + (if error then 1 else 0) = 1
  /\ (if takeover then 1 else 0) + (if error then 1 else 0) <= 1.
Proof.
  unfold report, reported, raises.
  destruct (run (check_dns_records net domain known_dkim_selectors nameserver timeout))
    as [[r|e] st] eqn:Hrun; cbn [fst].
  - apply check_dns_records_ok in Hrun
      as (spf & dmarc & dkim & takeover & tried & _ & _ & _ & _ & _ & -> & _).
    destruct (domain_result_fields domain (verdict spf) dkim (verdict dmarc)
                (if spf && dmarc then "No" else "Yes") takeover)
      as (_ & _ & _ & _ & -> & ->).
    split; [destruct spf, dmarc; reflexivity|]. case_bool_decide; lia.
  - split; reflexivity.
Qed.

Lemma scan_classes (domains : list string) :
  length domains
  = count (fun d => bool_decide (report d !! "Vulnerable to Spoofing" = Some "Yes")) domains
    + count (fun d => bool_decide (report d !! "Vulnerable to Spoofing" = Some "No")) domains
    + count (raises net known_dkim_selectors nameserver timeout) domains
  /\ count (fun d => bool_decide (report d !! "Potential Subdomain Takeover" = Some "Yes"))
           domains
     + count (raises net known_dkim_selectors nameserver timeout) domains
     <= length domains.
Proof.
  induction domains as [|d domains [IH1 IH2]]; [by split|].
  rewrite !count_cons. cbn [length]. destruct (reported_class d) as [H1 H2].
  cbv zeta in H1, H2. split; lia.
Qed.

End Report.

(** X11. The three counts of the summary (domains, vulnerable to spoofing,
    possible takeovers) do not depend on the order in which the tasks
    complete: two scans of one domain list, each with its own start and end
    time, give the same counts, or both fail with the same exception.  The
    duration is each scan's own. *)
Theorem summary_independent_of_completion_order
    (net : network) (known_dkim_selectors : option (list string))
    (nameserver : option string) (timeout : float)
    (domains : list string) (order1 order2 : list (future * string))
    (start_time1 end_time1 start_time2 end_time2 : float) :
  order1 ≡ₚ future_to_domain net known_dkim_selectors nameserver timeout domains ->
  order2 ≡ₚ future_to_domain net known_dkim_selectors nameserver timeout domains ->
  match analytics (results_list (collect (length domains) order1)) start_time1 end_time1,
        analytics (results_list (collect (length domains) order2)) start_time2 end_time2
  with
  | Ok s1, Ok s2 =>
      total_domains s1 = total_domains s2
      /\ vulnerable_count s1 = vulnerable_count s2
      /\ sub_takeover_count s1 = sub_takeover_count s2
      /\ scan_duration s1 = (end_time1 - start_time1)%float
      /\ scan_duration s2 = (end_time2 - start_time2)%float
  | Raise e1, Raise e2 => e1 = e2
  | _, _ => False
  end.
Proof.
  intros H1 H2.
  rewrite (analytics_Permutation _ (results_list (collect (length domains) order2))
             start_time1 end_time1)
    by (by rewrite (scan_results _ _ _ _ _ _ H1), (scan_results _ _ _ _ _ _ H2)).
  unfold analytics.
  destruct (count_equal "Vulnerable to Spoofing" "Yes" _); [|reflexivity].
  destruct (count_equal "Potential Subdomain Takeover" "Yes" _); [|reflexivity].
  cbn [total_domains vulnerable_count sub_takeover_count scan_duration].
  repeat split; reflexivity.
Qed.

Lemma summary_independent_of_completion_order_witness :
  let ftd := future_to_domain example_net (Some default_selectors) None 3 example_domains in
  let N := length example_domains in
  example_order ≡ₚ ftd
  /\ ftd ≡ₚ ftd
  /\ analytics (results_list (collect N example_order)) 10 12.5 = Ok (Summary 3 0 0 2.5)
  /\ analytics (results_list (collect N ftd)) 20 27 = Ok (Summary 3 0 0 7)
  /\ match analytics (results_list (collect N example_order)) 10 12.5,
           analytics (results_list (collect N ftd)) 20 27
     with
     | Ok s1, Ok s2 =>
         total_domains s1 = total_domains s2
         /\ vulnerable_count s1 = vulnerable_count s2
         /\ sub_takeover_count s1 = sub_takeover_count s2
         /\ scan_duration s1 = (12.5 - 10)%float
         /\ scan_duration s2 = (27 - 20)%float
     | Raise e1, Raise e2 => e1 = e2
     | _, _ => False
     end.
Proof.
  assert (H2 : future_to_domain example_net (Some default_selectors) None 3 example_domains
               ≡ₚ future_to_domain example_net (Some default_selectors) None 3
                    example_domains) by reflexivity.
  split; [exact example_order_complete|]. split; [exact H2|].
  split; [reflexivity|]. split; [reflexivity|].
  exact (summary_independent_of_completion_order example_net (Some default_selectors)
           None 3 example_domains _ _ 10 12.5 20 27 example_order_complete H2).
Defined.

(** X12. For a scan of a non-empty domain list the summary is computed
    without error.  Its total is the number of domains listed; every domain
    is counted once as vulnerable, as not vulnerable, or as one whose
    evaluation raised, and a domain whose evaluation raised is counted
    neither as vulnerable nor as a possible takeover. *)
Theorem summary_counts_each_domain_once
    (net : network) (known_dkim_selectors : option (list string))
    (nameserver : option string) (timeout : float)
    (domains : list string) (order : list (future * string))
    (start_time end_time : float) :
  order ≡ₚ future_to_domain net known_dkim_selectors nameserver timeout domains ->
  domains <> [] ->
  exists s,
    analytics (results_list (collect (length domains) order)) start_time end_time = Ok s
    /\ total_domains s = length domains
    /\ total_domains s
       = vulnerable_count s
         + count (fun d =>
                    bool_decide (reported net known_dkim_selectors nameserver timeout d
                                 !! "Vulnerable to Spoofing" = Some "No")) domains
         + count (raises net known_dkim_selectors nameserver timeout) domains
    /\ sub_takeover_count s
       + count (raises net known_dkim_selectors nameserver timeout) domains
       <= total_domains s.
Proof.
  intros Hperm Hne. eexists. split.
  - rewrite (analytics_Permutation _ _ _ _ (scan_results _ _ _ _ _ _ Hperm)).
    by apply analytics_reported.
  - cbn [total_domains vulnerable_count sub_takeover_count].
    split; [reflexivity|]. apply scan_classes.
Qed.

Lemma summary_counts_each_domain_once_witness :
  let N := length example_domains in
  example_order
  ≡ₚ future_to_domain example_net (Some default_selectors) None 3 example_domains
  /\ example_domains <> []
  /\ exists s,
      analytics (results_list (collect N example_order)) 10 12.5 = Ok s
      /\ total_domains s = N
      /\ total_domains s
         = vulnerable_count s
           + count (fun d =>
                      bool_decide (reported example_net (Some default_selectors) None 3 d
                                   !! "Vulnerable to Spoofing" = Some "No"))
                   example_domains
           + count (raises example_net (Some default_selectors) None 3) example_domains
      /\ sub_takeover_count s
         + count (raises example_net (Some default_selectors) None 3) example_domains
         <= total_domains s.
Proof.
  assert (Hne : example_domains <> []) by discriminate.
  split; [exact example_order_complete|]. split; [exact Hne|].
  exact (summary_counts_each_domain_once example_net (Some default_selectors) None 3
           example_domains example_order 10 12.5 example_order_complete Hne).
Defined.

Example example_summary :
  analytics (results_list (collect 3 example_order)) 10 12.5
  = Ok (Summary 3 0 0 2.5).
Proof. reflexivity. Qed.

(** ** Reading the domain list *)

Section DropLeading.

Variable p1 : ascii -> bool.
Variable p2 : ascii -> ascii -> bool.
Variable p3 : ascii -> ascii -> ascii -> bool.

Let D := Whitespace.drop_leading p1 p2 p3.

Lemma drop_leading_bounded (n : nat) (l : list ascii) :
  length l <= n ->
  (exists pre, l = (pre ++ D l)%list) /\ D (D l) = D l.
Proof.
  revert l. induction n as [|n IH]; intros l Hn.
  { destruct l; [|cbn in Hn; lia]. split; [by exists [] | done]. }
  destruct l as [|c1 l1]; [split; [by exists [] | done]|].
  unfold D. cbn [Whitespace.drop_leading]. fold D.
  destruct (p1 c1) eqn:H1.
  { destruct (IH l1) as [[pre Hpre] Hidem]; [cbn in Hn; lia|].
    split; [|exact Hidem]. exists (c1 :: pre). cbn. by rewrite <- Hpre. }
  destruct l1 as [|c2 l2].
  { split; [by exists []|]. unfold D. cbn [Whitespace.drop_leading]. by rewrite H1. }
  destruct (p2 c1 c2) eqn:H2.
  { destruct (IH l2) as [[pre Hpre] Hidem]; [cbn in Hn; lia|].
    split; [|exact Hidem]. exists (c1 :: c2 :: pre). cbn. by rewrite <- Hpre. }
  destruct l2 as [|c3 l3].
  { split; [by exists []|]. unfold D. cbn [Whitespace.drop_leading]. by rewrite H1, H2. }
  destruct (p3 c1 c2 c3) eqn:H3.
  { destruct (IH l3) as [[pre Hpre] Hidem]; [cbn in Hn; lia|].
    split; [|exact Hidem]. exists (c1 :: c2 :: c3 :: pre). cbn. by rewrite <- Hpre. }
  split; [by exists []|]. unfold D. cbn [Whitespace.drop_leading]. by rewrite H1, H2, H3.
Qed.

Lemma drop_leading_suffix (l : list ascii) : exists pre, l = (pre ++ D l)%list.
Proof. by apply (drop_leading_bounded (length l)). Qed.

Lemma drop_leading_idem (l : list ascii) : D (D l) = D l.
Proof. by apply (drop_leading_bounded (length l)). Qed.

Lemma drop_leading_length (l : list ascii) : length (D l) <= length l.
Proof.
  destruct (drop_leading_suffix l) as [pre H]. rewrite H at 2. rewrite length_app. lia.
Qed.

(** A text that loses nothing keeps losing nothing when cut short. *)
Lemma drop_leading_prefix (x y : list ascii) : D (x ++ y) = (x ++ y)%list -> D x = x.
Proof.
  destruct x as [|c1 x1]; [done|].
  unfold D. cbn [Whitespace.drop_leading app]. fold D.
  destruct (p1 c1) eqn:H1.
  { intros H. pose proof (drop_leading_length (x1 ++ y)) as Hlen.
    rewrite H in Hlen. cbn in Hlen. lia. }
  destruct x1 as [|c2 x2]; [done|]. cbn [app].
  destruct (p2 c1 c2) eqn:H2.
  { intros H. pose proof (drop_leading_length (x2 ++ y)) as Hlen.
    rewrite H in Hlen. cbn in Hlen. lia. }
  destruct x2 as [|c3 x3]; [done|]. cbn [app].
  destruct (p3 c1 c2 c3) eqn:H3; [|done].
  intros H. pose proof (drop_leading_length (x3 ++ y)) as Hlen.
  rewrite H in Hlen. cbn in Hlen. lia.
Qed.

End DropLeading.

Lemma list_ascii_of_string_app (s1 s2 : string) :
  list_ascii_of_string (s1 ++ s2) = (list_ascii_of_string s1 ++ list_ascii_of_string s2)%list.
Proof.
  induction s1 as [|c s1 IH]; [reflexivity|].
  change (list_ascii_of_string (String c (s1 ++ s2))
          = c :: (list_ascii_of_string s1 ++ list_ascii_of_string s2)%list).
  cbn [list_ascii_of_string]. by rewrite IH.
Qed.

Lemma strip_idem (s : string) : Whitespace.strip (Whitespace.strip s) = Whitespace.strip s.
Proof.
  unfold Whitespace.strip. rewrite list_ascii_of_string_of_list_ascii. f_equal.
  set (t := Whitespace.rstrip (list_ascii_of_string s)).
  assert (Hr : Whitespace.rstrip (Whitespace.lstrip t) = Whitespace.lstrip t).
  { unfold Whitespace.lstrip.
    destruct (drop_leading_suffix Whitespace.space1 Whitespace.space2 Whitespace.space3 t)
      as [pre Hpre].
    set (u := Whitespace.drop_leading _ _ _ t) in *.
    unfold Whitespace.rstrip.
    rewrite (drop_leading_prefix _ _ _ (rev u) (rev pre)); [apply rev_involutive|].
    rewrite <- rev_app_distr, <- Hpre. unfold t, Whitespace.rstrip.
    rewrite rev_involutive. apply drop_leading_idem. }
  rewrite Hr. apply drop_leading_idem.
Qed.

Lemma strip_newline (s : string) : Whitespace.strip (s ++ newline) = Whitespace.strip s.
Proof.
  unfold Whitespace.strip. do 2 f_equal. unfold Whitespace.rstrip.
  rewrite list_ascii_of_string_app, rev_app_distr. reflexivity.
Qed.

Lemma stripped_lines_clean (lines : list string) :
  Forall (fun d => d <> "" /\ Whitespace.strip d = d) (stripped_lines lines).
Proof.
  induction lines as [|line rest IH]; cbn [stripped_lines]; [constructor|].
  destruct (String.eqb (Whitespace.strip line) "") eqn:Hline; [exact IH|].
  constructor; [|exact IH]. split; [by apply String.eqb_neq | apply strip_idem].
Qed.

Lemma stripped_lines_rewritten (domains : list string) :
  Forall (fun d => d <> "" /\ Whitespace.strip d = d) domains ->
  stripped_lines (map (fun d => d ++ newline) domains) = domains.
Proof.
  induction 1 as [|d domains [Hne Hd] _ IH]; cbn [map stripped_lines]; [done|].
  rewrite strip_newline, Hd. apply String.eqb_neq in Hne as ->. by rewrite IH.
Qed.


(** X13. When [main] goes on to scan, the domain list is not empty, and no
    domain in it is empty or has white space at either end. *)
Theorem read_domains_stripped (file : opened) (input_file : string) (domains : list string) :
  read_domains file input_file = Scan domains ->
  domains <> []
  /\ Forall (fun d => d <> "" /\ Whitespace.strip d = d) domains.
Proof.
  unfold read_domains. destruct file as [lines| |e]; [|done..].
  pose proof (stripped_lines_clean lines) as Hclean.
  destruct (stripped_lines lines) as [|d rest]; [done|]. by intros [= <-].
Qed.

Lemma read_domains_stripped_witness :
  read_domains example_file "domains.txt" = Scan ["good.com"; "bad.com"; "good.com"]
  /\ ["good.com"; "bad.com"; "good.com"] <> []
  /\ Forall (fun d => d <> "" /\ Whitespace.strip d = d) ["good.com"; "bad.com"; "good.com"].
Proof.
  assert (H : read_domains example_file "domains.txt"
              = Scan ["good.com"; "bad.com"; "good.com"]) by reflexivity.
  split; [exact H|].
  exact (read_domains_stripped example_file "domains.txt" _ H).
Defined.

(** X14. Reading a domain list back: a file that holds the domains [main]
    read, one per line, gives the same list again, in the same order and
    with the same repetitions. *)
Theorem read_domains_round_trip
    (file : opened) (input_file input_file' : string) (domains : list string) :
  read_domains file input_file = Scan domains ->
  read_domains (FileLines (map (fun d => d ++ newline) domains)) input_file'
  = Scan domains.
Proof.
  unfold read_domains at 1. destruct file as [lines| |e]; [|done..].
  pose proof (stripped_lines_clean lines) as Hclean.
  destruct (stripped_lines lines) as [|d rest] eqn:Hlines; [done|]. intros [= <-].
  unfold read_domains. by rewrite (stripped_lines_rewritten _ Hclean).
Qed.

Lemma read_domains_round_trip_witness :
  read_domains example_file "domains.txt" = Scan ["good.com"; "bad.com"; "good.com"]
  /\ read_domains
       (FileLines (map (fun d => d ++ newline) ["good.com"; "bad.com"; "good.com"]))
       "copy.txt"
     = Scan ["good.com"; "bad.com"; "good.com"].
Proof.
  assert (H : read_domains example_file "domains.txt"
              = Scan ["good.com"; "bad.com"; "good.com"]) by reflexivity.
  split; [exact H|].
  exact (read_domains_round_trip example_file "domains.txt" "copy.txt" _ H).
Defined.


(** ** The names of the report files *)

Lemma before_last_dot_no_dot (s : string) : has_dot s = false -> before_last_dot s = s.
Proof.
  destruct s as [|c rest]; [done|]. cbn [has_dot before_last_dot].
  intros [Hc ->]%orb_false_iff. by rewrite Hc.
Qed.

Lemma has_dot_app_dot (s ext : string) : has_dot (s ++ "." ++ ext) = true.
Proof.
  induction s as [|c s IH]; [reflexivity|].
  change (has_dot (String c (s ++ "." ++ ext)) = true). cbn [has_dot].
  by rewrite IH, orb_true_r.
Qed.

Lemma before_last_dot_app (stem ext : string) :
  has_dot ext = false -> before_last_dot (stem ++ "." ++ ext) = stem.
Proof.
  intros Hext. induction stem as [|c stem IH].
  - change (before_last_dot (String "." ext) = ""). cbn [before_last_dot].
    by rewrite Hext.
  - change (before_last_dot (String c (stem ++ "." ++ ext)) = String c stem).
    cbn [before_last_dot]. by rewrite has_dot_app_dot, IH.
Qed.

(** X16. The report files are named after the base name cut at its last
    dot: whatever stands after that dot is replaced by the time stamp and the
    extension 'csv' or 'html', and a base name without a dot is kept
    whole. *)
Theorem output_names_cut_at_last_dot (ext : string) (now : datetime) :
  has_dot ext = false ->
  output_csv ext now = ext ++ "_" ++ strftime now ++ ".csv"
  /\ output_html ext now = ext ++ "_" ++ strftime now ++ ".html"
  /\ forall stem,
      output_csv (stem ++ "." ++ ext) now = stem ++ "_" ++ strftime now ++ ".csv"
      /\ output_html (stem ++ "." ++ ext) now = stem ++ "_" ++ strftime now ++ ".html".
Proof.
  intros Hext. unfold output_csv, output_html.
  rewrite (before_last_dot_no_dot _ Hext). split; [done|]. split; [done|].
  intros stem. by rewrite (before_last_dot_app _ _ Hext).
Qed.

Lemma output_names_cut_at_last_dot_witness :
  has_dot "csv" = false
  /\ output_csv "csv" example_now = "csv" ++ "_" ++ strftime example_now ++ ".csv"
  /\ output_html "csv" example_now = "csv" ++ "_" ++ strftime example_now ++ ".html"
  /\ forall stem,
      output_csv (stem ++ "." ++ "csv") example_now
      = stem ++ "_" ++ strftime example_now ++ ".csv"
      /\ output_html (stem ++ "." ++ "csv") example_now
         = stem ++ "_" ++ strftime example_now ++ ".html".
Proof.
  assert (H : has_dot "csv" = false) by reflexivity.
  split; [exact H|].
  exact (output_names_cut_at_last_dot "csv" example_now H).
Defined.

Example example_output_names :
  output_csv "domain_check_results.csv" example_now
  = "domain_check_results_20250309_070500.csv"
  /\ output_html "reports.d/scan" example_now = "reports_20250309_070500.html".
Proof. split; reflexivity. Qed.

Lemma two_digits_checked_true : two_digits_checked = true.
Proof. vm_compute. reflexivity. Qed.

Lemma two_digits_length (a : nat) :
  a < 100 -> String.length (two_digits (Z.of_nat a)) = 2.
Proof.
  intros Ha. pose proof two_digits_checked_true as H. unfold two_digits_checked in H.
  rewrite forallb_forall in H.
  assert (Hin : In a (seq 0 100)) by (apply in_seq; lia).
  destruct (andb_prop _ _ (H a Hin)) as [Hlen _]. by apply Nat.eqb_eq.
Qed.

Lemma two_digits_inj (a a' : nat) :
  a < 100 -> a' < 100 ->
  two_digits (Z.of_nat a) = two_digits (Z.of_nat a') -> a = a'.
Proof.
  intros Ha Ha' Heq. pose proof two_digits_checked_true as H.
  unfold two_digits_checked in H. rewrite forallb_forall in H.
  assert (Hin : In a (seq 0 100)) by (apply in_seq; lia).
  assert (Hin' : In a' (seq 0 100)) by (apply in_seq; lia).
  destruct (andb_prop _ _ (H a Hin)) as [_ Hall].
  rewrite forallb_forall in Hall. specialize (Hall a' Hin').
  rewrite Heq, String.eqb_refl in Hall. by apply Nat.eqb_eq.
Qed.

Lemma string_length_app (s1 s2 : string) :
  String.length (s1 ++ s2) = String.length s1 + String.length s2.
Proof.
  induction s1 as [|c s1 IH]; [reflexivity|].
  change (S (String.length (s1 ++ s2)) = S (String.length s1 + String.length s2)).
  by rewrite IH.
Qed.

(** Two texts that are equal and start with parts of one length have the same
    parts. *)
Lemma string_app_inj_head (s1 s2 r1 r2 : string) :
  String.length s1 = String.length s2 ->
  s1 ++ r1 = s2 ++ r2 -> s1 = s2 /\ r1 = r2.
Proof.
  revert s2. induction s1 as [|c s1 IH]; intros [|c' s2] Hlen Heq; try discriminate Hlen.
  - by split.
  - change (String c (s1 ++ r1) = String c' (s2 ++ r2)) in Heq.
    injection Heq as -> Heq. injection Hlen as Hlen.
    destruct (IH s2 Hlen Heq) as [-> ->]. by split.
Qed.

Lemma string_app_inj_tail (s1 s2 r1 r2 : string) :
  String.length r1 = String.length r2 ->
  s1 ++ r1 = s2 ++ r2 -> s1 = s2 /\ r1 = r2.
Proof.
  intros Hlen Heq. apply string_app_inj_head; [|exact Heq].
  apply (f_equal String.length) in Heq. rewrite !string_length_app in Heq. lia.
Qed.

Lemma strftime_inj (t1 t2 : datetime) :
  clock_reading t1 -> clock_reading t2 -> strftime t1 = strftime t2 -> t1 = t2.
Proof.
  destruct t1 as [Y1 m1 d1 H1 M1 S1], t2 as [Y2 m2 d2 H2 M2 S2].
  unfold clock_reading, strftime. cbn [year month day hour minute second].
  intros (Hm1 & Hd1 & Hh1 & Hmi1 & Hs1) (Hm2 & Hd2 & Hh2 & Hmi2 & Hs2) Heq.
  apply string_app_inj_tail in Heq as [HY Heq].
  2:{ rewrite !string_length_app, !two_digits_length by lia. reflexivity. }
  apply string_app_inj_head in Heq as [Hm Heq];
    [|by rewrite !two_digits_length by lia].
  apply string_app_inj_head in Heq as [Hd Heq];
    [|by rewrite !two_digits_length by lia].
  apply string_app_inj_head in Heq as [_ Heq]; [|reflexivity].
  apply string_app_inj_head in Heq as [Hh Heq];
    [|by rewrite !two_digits_length by lia].
  apply string_app_inj_head in Heq as [Hmi Hs];
    [|by rewrite !two_digits_length by lia].
  apply (inj pretty) in HY.
  apply two_digits_inj in Hm, Hd, Hh, Hmi, Hs; try lia. by subst.
Qed.

(** X17. Reports of one base name written at different seconds get
    different file names, so a later run does not overwrite an earlier one;
    two reports written within one second get the same name. *)
Theorem output_names_differ_by_second (base : string) (t1 t2 : datetime) :
  clock_reading t1 -> clock_reading t2 ->
  (output_csv base t1 = output_csv base t2 <-> t1 = t2)
  /\ (output_html base t1 = output_html base t2 <-> t1 = t2).
Proof.
  intros Ht1 Ht2. unfold output_csv, output_html.
  split; (split; [|by intros ->]); intros Heq;
    apply string_app_inj_head in Heq as [_ Heq]; try reflexivity;
    apply string_app_inj_head in Heq as [_ Heq]; try reflexivity;
    apply string_app_inj_tail in Heq as [Heq _]; try reflexivity;
    by apply strftime_inj.
Qed.

Lemma output_names_differ_by_second_witness :
  let later := Datetime 2025 3 9 7 5 1 in
  clock_reading example_now
  /\ clock_reading later
  /\ (output_csv "domain_check_results.csv" example_now
      = output_csv "domain_check_results.csv" later <-> example_now = later)
  /\ (output_html "domain_check_results.csv" example_now
      = output_html "domain_check_results.csv" later <-> example_now = later).
Proof.
  assert (H1 : clock_reading example_now) by (unfold clock_reading; cbn; lia).
  assert (H2 : clock_reading (Datetime 2025 3 9 7 5 1)) by (unfold clock_reading; cbn; lia).
  split; [exact H1|]. split; [exact H2|].
  exact (output_names_differ_by_second "domain_check_results.csv" example_now
           (Datetime 2025 3 9 7 5 1) H1 H2).
Defined.

(** ** Segments, failed lookups and the exceptions that escape *)

Lemma string_of_list_byte_app (l1 l2 : list byte) :
  string_of_list_byte (l1 ++ l2) = string_of_list_byte l1 ++ string_of_list_byte l2.
Proof.
  induction l1 as [|x l1 IH]; [reflexivity|].
  change (String (ascii_of_byte x) (string_of_list_byte (l1 ++ l2))
          = String (ascii_of_byte x) (string_of_list_byte l1 ++ string_of_list_byte l2)).
  by rewrite IH.
Qed.

Lemma join_decoded (parts : list (list byte)) :
  join (map string_of_list_byte parts) = string_of_list_byte (concat parts).
Proof.
  induction parts as [|part parts IH]; [reflexivity|].
  cbn [map join fold_right concat]. fold (join (map string_of_list_byte parts)).
  by rewrite IH, string_of_list_byte_app.
Qed.

(** X18. How a record is cut into segments does not matter as long as every
    segment decodes: two records with the same bytes, both of segments that
    are well-formed UTF-8, give the same text, and a lookup gives the same
    verdict with one as with the other. *)
Theorem segmentation_does_not_matter (r1 r2 : rdata) :
  decodable r1 -> decodable r2 ->
  concat (strings r1) = concat (strings r2) ->
  combined r1 = combined r2
  /\ forall validate before after,
      lookup_verdict validate (Ok (before ++ r1 :: after)%list)
      = lookup_verdict validate (Ok (before ++ r2 :: after)%list).
Proof.
  intros H1 H2 Hbytes.
  assert (Hcombined : combined r1 = combined r2).
  { rewrite (combined_decodable _ H1), (combined_decodable _ H2).
    by rewrite !join_decoded, Hbytes. }
  split; [exact Hcombined|]. intros validate before after. cbn [lookup_verdict].
  induction before as [|rd before IH]; cbn [app first_valid].
  - by rewrite Hcombined.
  - by rewrite IH.
Qed.

Lemma segmentation_does_not_matter_witness :
  let r1 := Rdata [b "v=spf1 "; b "include:example.com "; b "-all"] in
  let r2 := Rdata [b "v=spf1 include:"; b "example.com -all"] in
  decodable r1 /\ decodable r2
  /\ concat (strings r1) = concat (strings r2)
  /\ combined r1 = combined r2
  /\ forall validate before after,
      lookup_verdict validate (Ok (before ++ r1 :: after)%list)
      = lookup_verdict validate (Ok (before ++ r2 :: after)%list).
Proof.
  assert (H1 : decodable (Rdata [b "v=spf1 "; b "include:example.com "; b "-all"]))
    by (repeat constructor).
  assert (H2 : decodable (Rdata [b "v=spf1 include:"; b "example.com -all"]))
    by (repeat constructor).
  assert (Hbytes : concat (strings (Rdata [b "v=spf1 "; b "include:example.com "; b "-all"]))
                   = concat (strings (Rdata [b "v=spf1 include:"; b "example.com -all"])))
    by reflexivity.
  split; [exact H1|]. split; [exact H2|]. split; [exact Hbytes|].
  exact (segmentation_does_not_matter _ _ H1 H2 Hbytes).
Defined.

(** A record cut inside a character of two bytes: the whole decodes, the
    segments do not. *)
Example segment_cut_inside_character :
  combined (Rdata [[xc3; xa9]]) = Ok (String "195" (String "169" ""))
  /\ combined (Rdata [[xc3]; [xa9]]) = Raise UnicodeDecodeError.
Proof. split; reflexivity. Qed.

(** X19. A lookup that fails reads like a record that is missing: in an
    evaluation that returns, when the TXT lookup at the domain raised, SPF is
    'Fail', when the lookup at [_dmarc.<domain>] raised, DMARC is 'Fail', and
    in both cases the domain is reported as vulnerable to spoofing. *)
Theorem failed_lookup_reads_as_vulnerable
    (net : network) (domain : string) (known_dkim_selectors : option (list string))
    (nameserver : option string) (timeout : float)
    (r : gmap string string) (st : state) :
  run (check_dns_records net domain known_dkim_selectors nameserver timeout) = (Ok r, st) ->
  (forall e, answer_TXT net (configured nameserver timeout) domain = Raise e ->
             r !! "SPF" = Some "Fail" /\ r !! "Vulnerable to Spoofing" = Some "Yes")
  /\ (forall e, answer_TXT net (configured nameserver timeout) (dmarc_domain domain) = Raise e ->
                r !! "DMARC" = Some "Fail" /\ r !! "Vulnerable to Spoofing" = Some "Yes").
Proof.
  intros Hrun.
  apply check_dns_records_ok in Hrun
    as (spf & dmarc & dkim & takeover & tried & _ & Hspf & Hdmarc & _ & _ & -> & _).
  destruct (domain_result_fields domain (verdict spf) dkim (verdict dmarc)
              (if spf && dmarc then "No" else "Yes") takeover)
    as (_ & -> & _ & -> & -> & _).
  split; intros e He.
  - rewrite He in Hspf. cbn [lookup_verdict] in Hspf.
    destruct (lookup_failure e); [|discriminate Hspf]. injection Hspf as <-. by split.
  - rewrite He in Hdmarc. cbn [lookup_verdict] in Hdmarc.
    destruct (lookup_failure e); [|discriminate Hdmarc]. injection Hdmarc as <-.
    by rewrite andb_false_r.
Qed.

Lemma failed_lookup_reads_as_vulnerable_witness :
  let r := domain_result "quiet.example" "Fail" "Unknown" "Fail" "Yes" "Unknown" in
  let st := snd (run (check_dns_records example_net "quiet.example" None None 3)) in
  run (check_dns_records example_net "quiet.example" None None 3) = (Ok r, st)
  /\ (forall e, example_TXT "quiet.example" = Raise e ->
                r !! "SPF" = Some "Fail" /\ r !! "Vulnerable to Spoofing" = Some "Yes")
  /\ (forall e, example_TXT (dmarc_domain "quiet.example") = Raise e ->
                r !! "DMARC" = Some "Fail" /\ r !! "Vulnerable to Spoofing" = Some "Yes").
Proof.
  assert (Hrun : run (check_dns_records example_net "quiet.example" None None 3)
                 = (Ok (domain_result "quiet.example" "Fail" "Unknown" "Fail" "Yes" "Unknown"),
                    snd (run (check_dns_records example_net "quiet.example" None None 3))))
    by reflexivity.
  split; [exact Hrun|].
  exact (failed_lookup_reads_as_vulnerable example_net "quiet.example" None None 3 _ _ Hrun).
Defined.

Lemma lookup_failure_false (e : exn) : lookup_failure e = false -> is_DNSException e = false.
Proof. unfold lookup_failure. by intros [_ ?]%orb_false_iff. Qed.

Lemma lookup_verdict_raise (validate : string -> bool) (answer : res (list rdata)) (e : exn) :
  lookup_verdict validate answer = Raise e ->
  e = UnicodeDecodeError \/ (answer = Raise e /\ is_DNSException e = false).
Proof.
  destruct answer as [answers|e']; cbn [lookup_verdict].
  - intros H. left. by eapply first_valid_raise.
  - destruct (lookup_failure e') eqn:He'; [done|]. intros [= ->]. right.
    split; [reflexivity | by apply lookup_failure_false].
Qed.

Lemma sweep_raise_tried (probe : string -> res bool) (selectors tried : list string)
    (e : exn) :
  sweep probe selectors = (Raise e, tried) -> exists s, s ∈ tried /\ probe s = Raise e.
Proof.
  revert tried. induction selectors as [|s rest IH]; intros tried; cbn [sweep]; [done|].
  destruct (probe s) as [[|]|e'] eqn:Hs.
  - done.
  - destruct (sweep probe rest) as [r tried'] eqn:Hrest. intros [= -> <-].
    destruct (IH tried' eq_refl) as (s' & Hin & Hs'). exists s'. split; [|done].
    apply elem_of_cons. by right.
  - intros [= -> <-]. exists s. split; [apply elem_of_cons; by left | done].
Qed.

Lemma sweep_raise (probe : string -> res bool) (selectors tried : list string) (e : exn) :
  sweep probe selectors = (Raise e, tried) -> exists s, s ∈ selectors /\ probe s = Raise e.
Proof.
  revert tried. induction selectors as [|s rest IH]; intros tried; cbn [sweep]; [done|].
  destruct (probe s) as [[|]|e'] eqn:Hs.
  - done.
  - destruct (sweep probe rest) as [r tried'] eqn:Hrest. intros [= -> <-].
    destruct (IH tried' eq_refl) as (s' & Hin & Hs'). exists s'. split; [|done].
    apply elem_of_cons. by right.
  - intros [= -> <-]. exists s. split; [apply elem_of_cons; by left | done].
Qed.

(** X20. The exceptions that escape the evaluator: [UnicodeDecodeError] from
    a TXT segment, whatever creating the resolver raised, [ValueError] when
    the resolver does not accept the name server given, or an exception that
    is not a DNS exception raised by one of the lookups.  A DNS exception
    raised by a lookup never escapes, and neither does [KeyError]. *)
Theorem escaping_exceptions
    (net : network) (domain : string) (known_dkim_selectors : option (list string))
    (nameserver : option string) (timeout : float) (e : exn) (st : state) :
  run (check_dns_records net domain known_dkim_selectors nameserver timeout) = (Raise e, st) ->
  e = UnicodeDecodeError
  \/ resolver_configuration net = Raise e
  \/ (e = ValueError /\ nameserver_ok net nameserver = false /\ queries st = [])
  \/ (is_DNSException e = false
      /\ nameserver_ok net nameserver = true
      /\ ((exists qname, (qname, TXT) ∈ queries st
                         /\ lookup_TXT net (configured nameserver timeout) qname = Raise e)
          \/ ((domain, A) ∈ queries st
              /\ lookup_A net (configured nameserver timeout) domain = Raise e))).
Proof.
  intros Hrun.
  pose proof (check_dns_records_run net domain known_dkim_selectors nameserver timeout) as H.
  rewrite Hrun in H. unfold observe in H. cbn [fst snd] in H.
  symmetry in H. revert H.
  unfold evaluation.
  destruct (resolver_configuration net) as [[]|e0]; [|intros [= -> _]; right; by left].
  pose proof (refused_nameserver_ok net nameserver timeout) as Hok.
  destruct (refused net _) eqn:Hset.
  { intros [= -> Hlog]. right; right; left.
    split; [reflexivity|]. split; [|by rewrite <- Hlog].
    by destruct (nameserver_ok net nameserver). }
  assert (Hok' : nameserver_ok net nameserver = true)
    by (by destruct (nameserver_ok net nameserver)).
  assert (Hlookup : forall validate qname e',
             lookup_verdict validate
               (answer_TXT net (configured nameserver timeout) qname) = Raise e' ->
             e' = UnicodeDecodeError
             \/ (lookup_TXT net (configured nameserver timeout) qname = Raise e'
                 /\ is_DNSException e' = false)).
  { intros validate qname e' He'. rewrite <- (answer_TXT_set_up _ _ _ Hset).
    by apply (lookup_verdict_raise validate). }
  destruct (lookup_verdict validate_spf _) as [spf|e0] eqn:Hspf.
  2:{ intros [= -> Hlog]. rewrite <- Hlog. apply Hlookup in Hspf as [-> | [Hq He]]; [by left|].
      right; right; right. split; [exact He|]. split; [exact Hok'|]. left.
      exists domain. split; [|exact Hq]. apply elem_of_cons. by left. }
  destruct (lookup_verdict validate_dmarc _) as [dmarc|e0] eqn:Hdmarc.
  2:{ intros [= -> Hlog]. rewrite <- Hlog. apply Hlookup in Hdmarc as [-> | [Hq He]]; [by left|].
      right; right; right. split; [exact He|]. split; [exact Hok'|]. left.
      exists (dmarc_domain domain). split; [|exact Hq].
      apply elem_of_cons. right. apply elem_of_cons. by left. }
  destruct (dkim_outcome _ _ _ _) as [[dkim|e0] tried] eqn:Hdkim.
  2:{ intros [= -> Hlog]. rewrite <- Hlog. unfold dkim_outcome in Hdkim.
      destruct (falsy_list known_dkim_selectors); [discriminate Hdkim|].
      destruct (sweep _ _) as [[found|e1] tried'] eqn:Hsweep; [discriminate Hdkim|].
      injection Hdkim as -> ->.
      apply sweep_raise_tried in Hsweep as (s & Hin & Hs). unfold dkim_probe in Hs.
      apply Hlookup in Hs as [-> | [Hq He]]; [by left|].
      right; right; right. split; [exact He|]. split; [exact Hok'|]. left.
      exists (dkim_domain s domain). split; [|exact Hq].
      apply elem_of_cons. right. apply elem_of_cons. right.
      apply (list_elem_of_fmap_2 (dkim_query domain)) in Hin. exact Hin. }
  unfold takeover_verdict. rewrite (answer_A_set_up _ _ _ Hset).
  destruct (lookup_A net (configured nameserver timeout) domain) as [|e0]; [done|].
  destruct (is_NXDOMAIN e0); [done|].
  destruct (no_answer_or_dns e0) eqn:He0; [done|]. intros [= -> Hlog]. rewrite <- Hlog.
  right; right; right. split.
  { unfold no_answer_or_dns in He0. by apply orb_false_iff in He0 as [_ ?]. }
  split; [exact Hok'|]. right. split; [|reflexivity].
  apply elem_of_cons. right. apply elem_of_cons. right.
  apply list_elem_of_In, in_or_app. right. by left.
Qed.

Lemma escaping_exceptions_witness :
  run (check_dns_records example_net "good.com" None (Some "not-an-ip") 3)
  = (Raise ValueError, State (initial_results "good.com") [])
  /\ (ValueError = UnicodeDecodeError
      \/ resolver_configuration example_net = Raise ValueError
      \/ (ValueError = ValueError
          /\ nameserver_ok example_net (Some "not-an-ip") = false
          /\ queries (State (initial_results "good.com") []) = [])
      \/ (is_DNSException ValueError = false
          /\ nameserver_ok example_net (Some "not-an-ip") = true
          /\ ((exists qname,
                  (qname, TXT) ∈ queries (State (initial_results "good.com") [])
                  /\ lookup_TXT example_net (configured (Some "not-an-ip") 3) qname
                     = Raise ValueError)
              \/ (("good.com", A) ∈ queries (State (initial_results "good.com") [])
                  /\ lookup_A example_net (configured (Some "not-an-ip") 3) "good.com"
                     = Raise ValueError)))).
Proof.
  assert (Hrun : run (check_dns_records example_net "good.com" None (Some "not-an-ip") 3)
                 = (Raise ValueError, State (initial_results "good.com") []))
    by reflexivity.
  split; [exact Hrun|].
  exact (escaping_exceptions example_net "good.com" None (Some "not-an-ip") 3 _ _ Hrun).
Defined.

(** ** A name server the resolver refuses *)

(** X21. When the resolver does not accept the name server given (the
    assignment on line 69 raises [ValueError]), no domain is evaluated: for
    every domain the worker hands over the all-Error dictionary and prints
    the error, and no query is sent. *)
Theorem refused_nameserver_is_fatal
    (net : network) (domain : string) (known_dkim_selectors : option (list string))
    (nameserver : option string) (timeout : float) :
  resolver_configuration net = Ok tt ->
  nameserver_ok net nameserver = false ->
  worker net domain known_dkim_selectors nameserver timeout
  = (Ok (error_results domain), [ERROR domain ValueError])
  /\ queries (snd (run (check_dns_records net domain known_dkim_selectors
                                          nameserver timeout)))
     = [].
Proof.
  intros Hconf Hok.
  destruct (run_of_evaluation net domain known_dkim_selectors nameserver timeout
              (Raise ValueError) []) as (st & Hrun & Hlog).
  { unfold evaluation. by rewrite Hconf, refused_nameserver_ok, Hok. }
  rewrite (worker_of_run _ _ _ _ _ _ _ Hrun), Hrun. by split.
Qed.

Lemma refused_nameserver_is_fatal_witness :
  resolver_configuration example_net = Ok tt
  /\ nameserver_ok example_net (Some "not-an-ip") = false
  /\ worker example_net "good.com" (Some default_selectors) (Some "not-an-ip") 3
     = (Ok (error_results "good.com"), [ERROR "good.com" ValueError])
  /\ queries (snd (run (check_dns_records example_net "good.com" (Some default_selectors)
                                          (Some "not-an-ip") 3)))
     = []
  /\ fst (worker example_net "good.com" (Some default_selectors) (Some "192.0.2.53") 3)
     = Ok (domain_result "good.com" "Pass" "Pass" "Pass" "No" "No").
Proof.
  assert (Hconf : resolver_configuration example_net = Ok tt) by reflexivity.
  assert (Hok : nameserver_ok example_net (Some "not-an-ip") = false) by reflexivity.
  split; [exact Hconf|]. split; [exact Hok|].
  destruct (refused_nameserver_is_fatal example_net "good.com" (Some default_selectors)
              (Some "not-an-ip") 3 Hconf Hok) as [Hw Hq].
  split; [exact Hw|]. split; [exact Hq | reflexivity].
Defined.
